(** * MicroBench ([bench.h]): a shallow embedding and its verified properties

    The header keeps one process-wide [benchmark_t] store, records elapsed
    microsecond durations under caller-supplied labels, and renders the store
    as raw text, as a sentinel-framed JSON object and as a ranked bar chart.
    It also scales magnitudes to SI prefixes and reports an FFT throughput.

    Modelling choices:
    - [long long] and [size_t] values are integers ([Z]) with their
      wrap-around written out ([wrap_ll], [wrap_size_t]);
    - [double] is the kernel's binary64 ([PrimFloat.float]), so every
      floating-point operation of the source is evaluated bit for bit;
    - [char] buffers are lists of [ascii] bytes, C strings are read up to
      their first NUL;
    - the global [benchmarks] object is passed explicitly as a state;
    - [stdout] and [stderr] are the byte strings a call appends to them;
    - what the C library decides ([qsort], [log2], the text of a NaN under
      [printf]) is an interface, [Libc], specified by the C standard. *)

From Stdlib Require Import ZArith String Ascii List DecimalString Lia.
From Stdlib Require Import Floats.PrimFloat Floats.SpecFloat Floats.FloatOps.
From stdpp Require Import base list sorting.

Local Open Scope Z_scope.

Infix "+++" := String.append (right associativity, at level 60).

(** ** Compile-time configuration (bench.h, lines 46-48 and 113) *)

Definition MAX_FUNS_TO_BENCH : nat := 600.
Definition MAX_FUNS_NAME_LENGTH : nat := 100.
Definition BAR_LENGTH : Z := 20.
Definition STRING_LENGTH : nat := 32.

(** ** The C library, as far as the header relies on it *)

(** A comparison function is consistent when it behaves as a total
    preorder: swapping the arguments flips the sign, and "not after" is
    transitive. *)
Definition consistent_cmp {A : Type} (cmp : A → A → Z) : Prop :=
  (∀ a b, Z.sgn (cmp a b) = - Z.sgn (cmp b a)) ∧
  (∀ a b c, cmp a b ≤ 0 → cmp b c ≤ 0 → cmp a c ≤ 0).

(** [qsort] sorts an array ascending with respect to the comparison
    function; the order of elements that compare equal is unspecified.
    [log2] is the base-2 logarithm of [<math.h>]. [printf_nan] is the text
    [printf] emits for a NaN under an [f] conversion. *)
Class Libc := {
  qsort : ∀ {A : Type}, (A → A → Z) → list A → list A;
  qsort_permutation : ∀ {A : Type} (cmp : A → A → Z) (l : list A),
      qsort cmp l ≡ₚ l;
  qsort_sorted : ∀ {A : Type} (cmp : A → A → Z) (l : list A),
      consistent_cmp cmp → StronglySorted (λ a b, cmp a b ≤ 0) (qsort cmp l);
  log2 : float → float;
  printf_nan : string
}.

(** ** Integer and floating-point conversions *)

(** Two's-complement wrap-around of a 64-bit [long long]. *)
Definition wrap_ll (z : Z) : Z := (z + 2 ^ 63) mod 2 ^ 64 - 2 ^ 63.

(** Wrap-around of a 64-bit [size_t]. *)
Definition wrap_size_t (z : Z) : Z := z mod 2 ^ 64.

Definition in_ll (z : Z) : Prop := - 2 ^ 63 ≤ z < 2 ^ 63.

(** Integer to [double]: round to nearest, ties to even. *)
Definition double_of_Z (z : Z) : float :=
  SF2Prim (binary_normalize prec emax z 0 false).

(** [(int) x]: truncation toward zero; undefined ([None]) when the
    truncated value is not representable in a 32-bit [int], or for an
    infinity or a NaN. *)
Definition int_of_double (x : float) : option Z :=
  match Prim2SF x with
  | S754_zero _ => Some 0
  | S754_finite s m e =>
      let a := if 0 <=? e then Z.pos m * 2 ^ e else Z.pos m / 2 ^ (- e) in
      let t := if s then - a else a in
      if (- 2 ^ 31 <=? t) && (t <? 2 ^ 31) then Some t else None
  | _ => None
  end.

(** ** Text output: [printf] conversions *)

Definition nl : string := String "010"%char EmptyString.
Definition dq : string := String "034"%char EmptyString.
Definition esc : string := String "027"%char EmptyString.

Fixpoint rep (n : nat) (s : string) : string :=
  match n with
  | O => EmptyString
  | S k => s +++ rep k s
  end.

(** Right-justify (the default) and left-justify (the [-] flag) in a field
    of [w] bytes. *)
Definition pad_left (fill : string) (w : nat) (s : string) : string :=
  rep (w - String.length s) fill +++ s.

Definition pad_right (w : nat) (s : string) : string :=
  s +++ rep (w - String.length s) " ".

(** [%lld] *)
Definition conv_lld (z : Z) : string := NilEmpty.string_of_int (Z.to_int z).

(** [n / d] rounded to the nearest integer, ties to even ([0 < d]). *)
Definition round_half_even (n d : Z) : Z :=
  let q := n / d in
  let r := n mod d in
  if 2 * r <? d then q
  else if d <? 2 * r then q + 1
  else if Z.even q then q else q + 1.

(** The digits of [q / 10^p] with [p] decimals. *)
Definition fixed_digits (p : nat) (q : Z) : string :=
  let scale := 10 ^ Z.of_nat p in
  conv_lld (q / scale) +++
  match p with
  | O => EmptyString
  | _ => "." +++ pad_left "0" p (conv_lld (q mod scale))
  end.

Definition sign_text (s : bool) : string := if s then "-"%string else EmptyString.

Section Printf.
Context `{Libc}.

(** [%.pf]: the exact binary value rounded to [p] decimals. *)
Definition conv_f (p : nat) (x : float) : string :=
  match Prim2SF x with
  | S754_nan => printf_nan
  | S754_infinity s => sign_text s +++ "inf"
  | S754_zero s => sign_text s +++ fixed_digits p 0
  | S754_finite s m e =>
      let n := Z.pos m * 10 ^ Z.of_nat p in
      sign_text s +++
      fixed_digits p (if 0 <=? e then n * 2 ^ e else round_half_even n (2 ^ (- e)))
  end.

(** [%w.pf] *)
Definition conv_wf (w p : nat) (x : float) : string :=
  pad_left " " w (conv_f p x).
End Printf.

(** [snprintf(buffer, n, ...)]: at most [n - 1] bytes of the formatted
    text are stored (and a terminator). *)
Definition snprintf (n : nat) (text : string) : string :=
  String.substring 0 (n - 1) text.

(** ** ANSI colours (lines 51-62) and the separator (lines 67-68) *)

Definition RESET : string := esc +++ "[0m".
Definition BRIGHT_RED : string := esc +++ "[91m".
Definition RED : string := esc +++ "[31m".
Definition MAGENTA : string := esc +++ "[35m".
Definition BRIGHT_YELLOW : string := esc +++ "[93m".
Definition YELLOW : string := esc +++ "[33m".
Definition BRIGHT_GREEN : string := esc +++ "[92m".
Definition GREEN : string := esc +++ "[32m".
Definition BLUE : string := esc +++ "[34m".
Definition BRIGHT_CYAN : string := esc +++ "[96m".
Definition BRIGHT_BLUE : string := esc +++ "[94m".
Definition BAR_COLOR : string := BRIGHT_BLUE.

Definition line : string :=
  nl +++ "▰▰▰▰▰▰▰▰▰▰▰▰▰▰▰▰▰▰▰▰▰▰▰▰▰▰▰▰▰▰▰▰▰▰▰▰▰▰▰▰▰▰▰▰▰▰▰▰▰▰▰▰▰▰▰▰▰▰▰▰▰▰▰▰" +++ nl.

(** ** SI scales (lines 73-111) *)

Record scale := { suffix : string; scale_divisor : float }.

Inductive scale_index :=
  | scale_nano_idx | scale_micro_idx | scale_milli_idx | scale_unit_idx
  | scale_kilo_idx | scale_mega_idx | scale_giga_idx | scale_tera_idx.

Definition scale_count : nat := 8.

Definition idx (i : scale_index) : nat :=
  match i with
  | scale_nano_idx => 0 | scale_micro_idx => 1 | scale_milli_idx => 2
  | scale_unit_idx => 3 | scale_kilo_idx => 4 | scale_mega_idx => 5
  | scale_giga_idx => 6 | scale_tera_idx => 7
  end.

#[local] Set Warnings "-inexact-float".
Definition scales : list scale :=
  [ {| suffix := "n"; scale_divisor := 1e-9 |};
    {| suffix := "µ"; scale_divisor := 1e-6 |};
    {| suffix := "m"; scale_divisor := 1e-3 |};
    {| suffix := EmptyString; scale_divisor := 1 |};
    {| suffix := "k"; scale_divisor := 1e3 |};
    {| suffix := "M"; scale_divisor := 1e6 |};
    {| suffix := "G"; scale_divisor := 1e9 |};
    {| suffix := "T"; scale_divisor := 1e12 |} ].

(** [scales[i]] *)
Definition scales_at (i : nat) : scale :=
  nth i scales {| suffix := EmptyString; scale_divisor := 0 |}.

(** ** [get_scale] (lines 322-333) *)

(** The loop [for (i = scale_count - 1; i >= 0; --i)], with [k = i + 1]. *)
Fixpoint get_scale_loop (k : nat) (v : float) : scale :=
  match k with
  | O => scales_at (idx scale_nano_idx)
  | S i =>
      let scaled := PrimFloat.div v (scale_divisor (scales_at i)) in
      if PrimFloat.leb 1 (PrimFloat.abs scaled) then scales_at i
      else get_scale_loop i v
  end.

Definition get_scale (v : float) : scale :=
  if PrimFloat.eqb v 0 then scales_at (idx scale_nano_idx)
  else get_scale_loop scale_count v.

(** ** [format_scaled] (lines 335-339) *)

Section Format.
Context `{Libc}.

Definition format_scaled (val : float) (buf_size : nat) (unit : string) : string :=
  let s := get_scale val in
  let scaled := PrimFloat.div val (scale_divisor s) in
  snprintf buf_size (conv_wf 7 3 scaled +++ " " +++ suffix s +++ unit).
End Format.

(** ** The store (lines 118-131) *)

Record time_info := {
  time_us : Z;                      (* long long *)
  function_name : list ascii        (* char[MAX_FUNS_NAME_LENGTH] *)
}.

Record benchmark_t := {
  total_time : Z;                   (* long long *)
  start_time : Z;                   (* long long *)
  timings : list time_info;         (* time_info[MAX_FUNS_TO_BENCH] *)
  timing_index : nat                (* size_t *)
}.

Definition set_time_us (v : Z) (t : time_info) : time_info :=
  {| time_us := v; function_name := function_name t |}.

Definition set_function_name (f : list ascii → list ascii) (t : time_info) : time_info :=
  {| time_us := time_us t; function_name := f (function_name t) |}.

Definition NUL : ascii := "000"%char.

Definition zero_time_info : time_info :=
  {| time_us := 0; function_name := replicate MAX_FUNS_NAME_LENGTH NUL |}.

(** [benchmarks.timings[i]] *)
Definition timings_at (b : benchmark_t) (i : nat) : time_info :=
  nth i (timings b) zero_time_info.

(** The object has static storage: it starts zero-filled. *)
Definition static_benchmarks : benchmark_t :=
  {| total_time := 0; start_time := 0;
     timings := replicate MAX_FUNS_TO_BENCH zero_time_info;
     timing_index := 0 |}.

(** The shape every [benchmark_t] object has: the array sizes. *)
Definition wf_time_info (t : time_info) : Prop :=
  length (function_name t) = MAX_FUNS_NAME_LENGTH.

Definition wf_benchmark (b : benchmark_t) : Prop :=
  length (timings b) = MAX_FUNS_TO_BENCH ∧
  Forall wf_time_info (timings b) ∧
  (timing_index b ≤ MAX_FUNS_TO_BENCH)%nat.

(** The entries the reporters read: [timings[0 .. timing_index)]. *)
Definition stored (b : benchmark_t) : list time_info :=
  take (timing_index b) (timings b).

Definition sum_time_us (l : list time_info) : Z :=
  foldr (λ t acc, time_us t + acc) 0 l.

(** ** [benchmark_init] (lines 290-294) *)

Definition benchmark_init (b : benchmark_t) : benchmark_t :=
  {| total_time := 0; start_time := 0; timings := timings b; timing_index := 0 |}.

(** ** [get_time_us] (lines 296-300) *)

Record timespec := { tv_sec : Z; tv_nsec : Z }.

(** The reading [clock_gettime(CLOCK_MONOTONIC, &ts)] produced is an input. *)
Definition get_time_us (ts : timespec) : Z :=
  wrap_ll (wrap_ll (tv_sec ts * 1000000) + Z.quot (tv_nsec ts) 1000).

(** ** [START_TIMING] (line 210) *)

Definition START_TIMING (now : timespec) (b : benchmark_t) : benchmark_t :=
  {| total_time := total_time b; start_time := get_time_us now;
     timings := timings b; timing_index := timing_index b |}.

(** ** C strings and [strncpy] *)

Definition is_nul (c : ascii) : bool := Ascii.eqb c NUL.

(** The bytes of a buffer before its first NUL. *)
Fixpoint c_chars (buf : list ascii) : list ascii :=
  match buf with
  | [] => []
  | c :: rest => if is_nul c then [] else c :: c_chars rest
  end.

(** The text [%s] prints for a buffer. *)
Definition c_str (buf : list ascii) : string :=
  string_of_list_ascii (c_chars buf).

(** [strncpy(dst, src, n)] as the byte stores it performs on [dst]: the
    bytes of [src] up to its terminator, then NUL padding; exactly [n]
    stores, at offsets [off, off + 1, ...]. *)
Fixpoint strncpy_stores (src : list ascii) (n off : nat) : list (nat * ascii) :=
  match n with
  | O => []
  | S k =>
      match src with
      | c :: rest =>
          if is_nul c then (off, NUL) :: strncpy_stores [] k (S off)
          else (off, c) :: strncpy_stores rest k (S off)
      | [] => (off, NUL) :: strncpy_stores [] k (S off)
      end
  end.

(** Performs the stores on a buffer; a store at an offset outside the
    buffer would be an overrun and is not performed here (see
    [label_stores_in_bounds]). *)
Definition store_bytes (buf : list ascii) (ws : list (nat * ascii)) : list ascii :=
  foldl (λ acc w, <[fst w := snd w]> acc) buf ws.

(** ** [record_timing] (lines 302-320) *)

(** The stores lines 312-317 perform on [function_name]:
    [strncpy(.., sizeof(..) - 1)], then [function_name[sizeof(..) - 1] = 0]. *)
Definition label_stores (label : string) : list (nat * ascii) :=
  strncpy_stores (list_ascii_of_string label) (MAX_FUNS_NAME_LENGTH - 1) 0
  ++ [((MAX_FUNS_NAME_LENGTH - 1)%nat, NUL)].

Definition capacity_diagnostic : string :=
  "Error: Exceeded maximum number of benchmarked functions!" +++ nl.

(** Returns the new store and the text written to [stderr]. [now] is the
    clock reading [get_time_us] takes on line 308. *)
Definition record_timing (now : timespec) (label : string) (b : benchmark_t)
  : benchmark_t * string :=
  if bool_decide (MAX_FUNS_TO_BENCH ≤ timing_index b)%nat then
    (b, capacity_diagnostic)
  else
    let i := timing_index b in
    let end_time := get_time_us now in
    let duration := wrap_ll (end_time - start_time b) in
    let timings1 := alter (set_time_us duration) i (timings b) in
    let total := wrap_ll (total_time b + duration) in
    let timings2 :=
      alter (set_function_name (λ buf, store_bytes buf (label_stores label))) i timings1 in
    ({| total_time := total; start_time := start_time b;
        timings := timings2; timing_index := S i |}, EmptyString).

Definition END_TIMING := record_timing.

(** ** [compare_times] (lines 364-371) *)

Definition compare_times (ta tb : time_info) : Z :=
  if time_us ta <? time_us tb then 1
  else if time_us tb <? time_us ta then -1
  else 0.

(** ** [get_gradient_color] (lines 373-382) *)

Definition get_gradient_color (percentage : float) : string :=
  if PrimFloat.leb 80 percentage then BRIGHT_RED
  else if PrimFloat.leb 60 percentage then RED
  else if PrimFloat.leb 40 percentage then MAGENTA
  else if PrimFloat.leb 25 percentage then BRIGHT_YELLOW
  else if PrimFloat.leb 15 percentage then YELLOW
  else if PrimFloat.leb 5 percentage then BRIGHT_GREEN
  else if PrimFloat.ltb 0.1 percentage then GREEN
  else BLUE.

(** ** Loops over [i = 0 .. n - 1] that print *)

Definition for_each (n : nat) (body : nat → string) : string :=
  foldr (λ i acc, body i +++ acc) EmptyString (seq 0 n).

(** The same when an iteration may have undefined behaviour. *)
Definition for_each_opt (n : nat) (body : nat → option string) : option string :=
  foldr (λ i acc, r ← body i; rest ← acc; Some (r +++ rest)) (Some EmptyString) (seq 0 n).

(** [(double)benchmarks.timings[i].time_us * 100.0 / benchmarks.total_time]
    (lines 399 and 426). *)
Definition percentage_of (b : benchmark_t) (i : nat) : float :=
  PrimFloat.div
    (PrimFloat.mul (double_of_Z (time_us (timings_at b i))) 100)
    (double_of_Z (total_time b)).

(** ** [print_bench] (lines 436-440) *)

Definition print_bench (b : benchmark_t) : string :=
  for_each (timing_index b) (λ i,
    c_str (function_name (timings_at b i)) +++ ":" +++
    conv_lld (time_us (timings_at b i)) +++ nl).

Section Reporter.
Context `{Libc}.

(** ** [print_bench_json] (lines 423-434) *)

Definition json_line (b : benchmark_t) (i : nat) : string :=
  let percentage := percentage_of b i in
  "  " +++ dq +++ c_str (function_name (timings_at b i)) +++ dq +++
  ": {" +++ dq +++ "time_μs" +++ dq +++ ": " +++
  conv_lld (time_us (timings_at b i)) +++
  ", " +++ dq +++ "percentage" +++ dq +++ ": " +++ conv_f 2 percentage +++ "}" +++
  (if Z.of_nat i <? wrap_size_t (Z.of_nat (timing_index b) - 1)
   then ","%string else EmptyString) +++ nl.

Definition print_bench_json (b : benchmark_t) : string :=
  ">>>{" +++ nl +++ for_each (timing_index b) (json_line b) +++ "}<<<" +++ nl.

(** ** [print_bench_ranked] (lines 384-421) *)

Definition dashes : string :=
  "---------------------------------------------------------".

Definition ranked_header : string :=
  BRIGHT_CYAN +++ dashes +++ nl +++
  "| " +++ pad_right 20 "Function" +++ " | " +++ pad_right 12 "Exec Time" +++
  " | " +++ pad_right 7 "% of total runtime" +++ " |" +++ nl +++
  dashes +++ RESET +++ nl.

Definition ranked_footer : string :=
  BRIGHT_CYAN +++ dashes +++ nl +++ RESET.

(** [int filled_length = (int)(BAR_LENGTH * percentage / 100.0)] (line 400) *)
Definition filled_length_of (percentage : float) : option Z :=
  int_of_double
    (PrimFloat.div (PrimFloat.mul (double_of_Z BAR_LENGTH) percentage) 100).

(** [BAR_LENGTH - filled_length] in [int]: undefined on overflow. *)
Definition empty_length_of (filled_length : Z) : option Z :=
  let d := BAR_LENGTH - filled_length in
  if (- 2 ^ 31 <=? d) && (d <? 2 ^ 31) then Some d else None.

(** The colour argument of line 405. *)
Definition share_of_max (b : benchmark_t) (max_time : Z) (i : nat) : float :=
  PrimFloat.mul
    (PrimFloat.div (double_of_Z (time_us (timings_at b i))) (double_of_Z max_time))
    100.

(** The bar printed by lines 414-417. *)
Definition bar_row (filled_length empty_length : Z) : string :=
  BRIGHT_CYAN +++ "[" +++
  rep (Z.to_nat filled_length) "▰" +++
  rep (Z.to_nat empty_length) " " +++
  "]" +++ RESET +++ nl.

(** One iteration of the loop of lines 398-418. *)
Definition ranked_row (b : benchmark_t) (max_time : Z) (i : nat) : option string :=
  let percentage := percentage_of b i in
  filled_length ← filled_length_of percentage;
  let time_str :=
    format_scaled
      (PrimFloat.mul (double_of_Z (time_us (timings_at b i)))
                     (scale_divisor (scales_at (idx scale_micro_idx))))
      STRING_LENGTH "s" in
  let func_color := get_gradient_color (share_of_max b max_time i) in
  empty_length ← empty_length_of filled_length;
  Some (func_color +++ "| " +++
        pad_right 20 (c_str (function_name (timings_at b i))) +++ " | " +++
        pad_left " " 12 time_str +++ " | " +++
        conv_wf 6 4 percentage +++ "% |" +++ RESET +++ nl +++
        bar_row filled_length empty_length).

(** The store after line 390: the first [timing_index] entries sorted. *)
Definition ranked_sort (b : benchmark_t) : benchmark_t :=
  {| total_time := total_time b; start_time := start_time b;
     timings := qsort compare_times (take (timing_index b) (timings b))
                ++ drop (timing_index b) (timings b);
     timing_index := timing_index b |}.

Definition no_data_notice : string :=
  nl +++ "No benchmark data available." +++ nl.

(** Returns the store (reordered) and the text written to [stdout];
    [None] when a conversion of the call has undefined behaviour. *)
Definition print_bench_ranked (b : benchmark_t) : option (benchmark_t * string) :=
  if bool_decide (timing_index b = 0%nat) then Some (b, no_data_notice)
  else
    let b' := ranked_sort b in
    let max_time := time_us (timings_at b' 0) in
    rows ← for_each_opt (timing_index b') (ranked_row b' max_time);
    Some (b', ranked_header +++ rows +++ ranked_footer).

(** ** [FFT_bench] (lines 341-362) *)

(** Line 348. *)
Definition fft_flops (mu_s : float) (FFT_size : Z) : float :=
  let fft_points := double_of_Z FFT_size in
  PrimFloat.div
    (PrimFloat.mul (PrimFloat.mul 5 fft_points) (log2 fft_points))
    (PrimFloat.mul mu_s (scale_divisor (scales_at (idx scale_micro_idx)))).

(** Returns the text written to [stdout]. [FFT_size] is an [unsigned int]. *)
Definition FFT_bench (mu_s : float) (FFT_size : Z) : string :=
  if PrimFloat.leb mu_s 0 then EmptyString
  else
    let mflops := fft_flops mu_s FFT_size in
    let time_buffer :=
      format_scaled
        (PrimFloat.mul mu_s (scale_divisor (scales_at (idx scale_micro_idx))))
        STRING_LENGTH "s" in
    let mflops_buffer := format_scaled mflops STRING_LENGTH "FLOP/s" in
    (BAR_COLOR +++ line +++ RESET) +++
    ("⏱️  " +++ BRIGHT_CYAN +++ "FFT per frame" +++ RESET +++ "  : " +++
     BRIGHT_YELLOW +++ time_buffer +++ RESET +++
     " (" +++ conv_f 3 mu_s +++ " µs)" +++ nl) +++
    ("⚡  " +++ BRIGHT_CYAN +++ "Speed         " +++ RESET +++ "  : " +++
     BRIGHT_GREEN +++ mflops_buffer +++ RESET +++
     " (" +++ conv_f 3 mflops +++ " FLOP/s)" +++ nl) +++
    (BAR_COLOR +++ line +++ RESET +++ nl +++ nl).

(** ** Programs: sequences of calls on the store *)

Inductive op :=
  | OpInit
  | OpStart (now : timespec)
  | OpEnd (now : timespec) (label : string)
  | OpPrint
  | OpPrintJson
  | OpPrintRanked
  | OpFFT (mu_s : float) (FFT_size : Z).

Record console := { out : string; err : string }.

(** One call: the new store and what it wrote. *)
Definition step (o : op) (b : benchmark_t) : option (benchmark_t * console) :=
  match o with
  | OpInit => Some (benchmark_init b, {| out := EmptyString; err := EmptyString |})
  | OpStart now => Some (START_TIMING now b, {| out := EmptyString; err := EmptyString |})
  | OpEnd now label =>
      let r := END_TIMING now label b in
      Some (fst r, {| out := EmptyString; err := snd r |})
  | OpPrint => Some (b, {| out := print_bench b; err := EmptyString |})
  | OpPrintJson => Some (b, {| out := print_bench_json b; err := EmptyString |})
  | OpPrintRanked =>
      r ← print_bench_ranked b;
      Some (fst r, {| out := snd r; err := EmptyString |})
  | OpFFT mu_s n => Some (b, {| out := FFT_bench mu_s n; err := EmptyString |})
  end.

(** A call of [record_timing] succeeded when it wrote no diagnostic. *)
Definition recorded (o : op) (c : console) : nat :=
  match o with
  | OpEnd _ _ => if String.eqb (err c) EmptyString then 1%nat else 0%nat
  | _ => 0%nat
  end.

(** Runs a program; returns the final store, the console and the number
    of recordings that succeeded. *)
Fixpoint run (ops : list op) (b : benchmark_t) : option (benchmark_t * console * nat) :=
  match ops with
  | [] => Some (b, {| out := EmptyString; err := EmptyString |}, 0%nat)
  | o :: rest =>
      r ← step o b;
      r' ← run rest (fst r);
      Some (fst (fst r'),
            {| out := out (snd r) +++ out (snd (fst r'));
               err := err (snd r) +++ err (snd (fst r')) |},
            (recorded o (snd r) + snd r')%nat)
  end.
End Reporter.

(** * Vocabulary of the properties

    Definitions the statements below are written with: the invariant of
    the store, the texts the reporters are expected to print, two sorting
    routines that meet the contract of [qsort], and a few concrete stores
    and programs. *)

(** The entry a successful [record_timing] leaves in slot [timing_index]. *)
Definition recorded_entry (now : timespec) (label : string) (b : benchmark_t) : time_info :=
  {| time_us := wrap_ll (get_time_us now - start_time b);
     function_name :=
       store_bytes (function_name (timings_at b (timing_index b))) (label_stores label) |}.

(** The invariant of the store: the running total is the sum of the
    stored durations, in [long long] arithmetic. *)
Definition total_is_sum (b : benchmark_t) : Prop :=
  total_time b = wrap_ll (sum_time_us (stored b)).

Definition is_end (o : op) : nat :=
  match o with OpEnd _ _ => 1%nat | _ => 0%nat end.

(** The number of [END_TIMING] calls of a program. *)
Definition count_ends (ops : list op) : nat :=
  foldr (λ o acc, (is_end o + acc)%nat) 0%nat ops.

(** What [strncpy(dst, src, n)] leaves in [dst[0 .. n)]. *)
Definition padded_copy (src : list ascii) (n : nat) : list ascii :=
  take n (c_chars src) ++ replicate (n - length (c_chars src)) NUL.

(** The test of line 328 for one entry of the table. *)
Definition scale_fits (v : float) (s : scale) : bool :=
  PrimFloat.leb 1 (PrimFloat.abs (PrimFloat.div v (scale_divisor s))).

(** Descending by duration. *)
Definition descending : relation time_info := λ a b, compare_times a b ≤ 0.

(** The labels of a sequence of entries, as [%s] prints them. *)
Definition labels (l : list time_info) : list string :=
  (λ t, c_str (function_name t)) <$> l.

(** A table row and its bar, as lines 407-417 print them. *)
Definition table_row (color label time_str percentage : string) (filled : Z) : string :=
  color +++ "| " +++ pad_right 20 label +++ " | " +++ pad_left " " 12 time_str +++
  " | " +++ percentage +++ "% |" +++ RESET +++ nl +++
  bar_row filled (BAR_LENGTH - filled).

Section ReportTexts.
Context `{Libc}.

(** The text [FFT_bench] prints for a duration [mu_s] (µs) and a
    throughput [flops] (FLOP/s). *)
Definition fft_report (mu_s flops : float) : string :=
  (BAR_COLOR +++ line +++ RESET) +++
  ("⏱️  " +++ BRIGHT_CYAN +++ "FFT per frame" +++ RESET +++ "  : " +++
   BRIGHT_YELLOW +++ format_scaled (PrimFloat.mul mu_s 1e-6) STRING_LENGTH "s" +++ RESET +++
   " (" +++ conv_f 3 mu_s +++ " µs)" +++ nl) +++
  ("⚡  " +++ BRIGHT_CYAN +++ "Speed         " +++ RESET +++ "  : " +++
   BRIGHT_GREEN +++ format_scaled flops STRING_LENGTH "FLOP/s" +++ RESET +++
   " (" +++ conv_f 3 flops +++ " FLOP/s)" +++ nl) +++
  (BAR_COLOR +++ line +++ RESET +++ nl +++ nl).

(** The object printed for one entry: key, duration, percentage. *)
Definition json_entry (total : Z) (t : time_info) : string :=
  dq +++ c_str (function_name t) +++ dq +++
  ": {" +++ dq +++ "time_μs" +++ dq +++ ": " +++ conv_lld (time_us t) +++
  ", " +++ dq +++ "percentage" +++ dq +++ ": " +++
  conv_f 2 (PrimFloat.div (PrimFloat.mul (double_of_Z (time_us t)) 100)
                          (double_of_Z total)) +++
  "}".

(** One line per entry, in list order; a comma after each but the last. *)
Fixpoint json_lines (total : Z) (entries : list time_info) : string :=
  match entries with
  | [] => EmptyString
  | t :: rest =>
      "  " +++ json_entry total t +++
      match rest with [] => EmptyString | _ :: _ => ","%string end +++ nl +++
      json_lines total rest
  end.

(** The percentages the loop of lines 425-432 computes, in order. *)
Definition json_percentages (b : benchmark_t) : list float :=
  map (percentage_of b) (seq 0 (timing_index b)).

End ReportTexts.

(** ** Sorting routines and a logarithm to run the model with *)

(** [a] may come before [b] in an array sorted with [cmp]. *)
Definition not_after {A : Type} (cmp : A → A → Z) : relation A :=
  λ a b, cmp a b ≤ 0.

#[local] Instance not_after_dec {A : Type} (cmp : A → A → Z) (a b : A) :
  Decision (not_after cmp a b).
Proof. unfold not_after. apply _. Defined.

(** A stable merge sort. *)
Definition stable_qsort {A : Type} (cmp : A → A → Z) (l : list A) : list A :=
  merge_sort (not_after cmp) l.

(** A sort that is not stable: it walks the array from its end. *)
Definition backward_qsort {A : Type} (cmp : A → A → Z) (l : list A) : list A :=
  merge_sort (not_after cmp) (reverse l).

(** A stand-in for [log2]: exact on the powers of two, linear between two
    consecutive ones. *)
Definition model_log2 (x : float) : float :=
  match Prim2SF x with
  | S754_nan => PrimFloat.nan
  | S754_zero _ => PrimFloat.neg_infinity
  | S754_infinity s => if s then PrimFloat.nan else PrimFloat.infinity
  | S754_finite s m e =>
      if s then PrimFloat.nan
      else
        let '(f, k) := FloatOps.Z.frexp x in
        PrimFloat.add (double_of_Z (k - 1)) (PrimFloat.sub (PrimFloat.mul 2 f) 1)
  end.

(** ** Concrete stores and programs *)

(** The clock reading of [us] microseconds. *)
Definition at_us (us : Z) : timespec := {| tv_sec := 0; tv_nsec := us * 1000 |}.

(** A store whose [timing_index] has reached the capacity. *)
Definition full_store : benchmark_t :=
  {| total_time := 0; start_time := 0;
     timings := replicate MAX_FUNS_TO_BENCH zero_time_info;
     timing_index := MAX_FUNS_TO_BENCH |}.

(** [benchmark_init(); START_TIMING(); END_TIMING("a")] (1000 µs);
    the same for ["b"] (3000 µs) and ["c"] (2000 µs). *)
Definition abc_program : list op :=
  [ OpStart (at_us 0); OpEnd (at_us 1000) "a";
    OpStart (at_us 1000); OpEnd (at_us 4000) "b";
    OpStart (at_us 4000); OpEnd (at_us 6000) "c" ].

(** The store that program leaves: {a:1000, b:3000, c:2000}. *)
Definition abc_store : benchmark_t :=
  fst (END_TIMING (at_us 6000) "c" (START_TIMING (at_us 4000)
    (fst (END_TIMING (at_us 4000) "b" (START_TIMING (at_us 1000)
      (fst (END_TIMING (at_us 1000) "a" (START_TIMING (at_us 0)
        (benchmark_init static_benchmarks))))))))).

(** A store with one entry, of duration 0: [START_TIMING] and
    [END_TIMING("z")] at the same clock reading. *)
Definition zero_store : benchmark_t :=
  fst (END_TIMING (at_us 5) "z"
         (START_TIMING (at_us 5) (benchmark_init static_benchmarks))).

(** Two entries of 1000 µs each. *)
Definition tie_store : benchmark_t :=
  fst (END_TIMING (at_us 2000) "y" (START_TIMING (at_us 1000)
    (fst (END_TIMING (at_us 1000) "x" (START_TIMING (at_us 0)
      (benchmark_init static_benchmarks)))))).

(** A label of 130 bytes. *)
Definition long_label : string := rep 13 "0123456789".

(** Nothing written. *)
Definition silent : console := {| out := EmptyString; err := EmptyString |}.

(** The chart of {a:1000, b:3000, c:2000}. *)
Definition abc_ranked_output : string :=
  ranked_header +++
  table_row BRIGHT_RED "b" "3.000 ms" "50.0000" 10 +++
  table_row RED "c" "2.000 ms" "33.3333" 6 +++
  table_row BRIGHT_YELLOW "a" "1.000 ms" "16.6667" 3 +++
  ranked_footer.

(** The chart of two entries of 1000 µs, in a given order of labels. *)
Definition tie_output (first second : string) : string :=
  ranked_header +++
  table_row BRIGHT_RED first "1.000 ms" "50.0000" 10 +++
  table_row BRIGHT_RED second "1.000 ms" "50.0000" 10 +++
  ranked_footer.

(** ** Vocabulary of the further properties *)

(** The line [print_bench] writes for one entry (line 438). *)
Definition raw_line (t : time_info) : string :=
  c_str (function_name t) +++ ":" +++ conv_lld (time_us t) +++ nl.

(** One such line per entry, in list order. *)
Definition raw_lines (entries : list time_info) : string :=
  foldr (λ t acc, raw_line t +++ acc) EmptyString entries.

(** A reading [clock_gettime] can produce whose microsecond count fits a
    [long long]. *)
Definition valid_timespec (ts : timespec) : Prop :=
  0 ≤ tv_sec ts ∧ tv_sec ts * 1000000 + 999999 < 2 ^ 63 ∧
  0 ≤ tv_nsec ts < 1000000000.

(** [t1] is not later than [t2]. *)
Definition not_later (t1 t2 : timespec) : Prop :=
  tv_sec t1 < tv_sec t2 ∨ (tv_sec t1 = tv_sec t2 ∧ tv_nsec t1 ≤ tv_nsec t2).

(** The eight colours of [get_gradient_color], strongest first. *)
Definition gradient_colors : list string :=
  [BRIGHT_RED; RED; MAGENTA; BRIGHT_YELLOW; YELLOW; BRIGHT_GREEN; GREEN; BLUE].

(** Calls that only record: [benchmark_init], [START_TIMING], [END_TIMING]. *)
Definition is_recording_op (o : op) : Prop :=
  match o with
  | OpInit | OpStart _ | OpEnd _ _ => True
  | _ => False
  end.

(** ** Reference implementations of the C library interface

    They are used to run the model on concrete stores. *)

Lemma consistent_total {A : Type} (cmp : A → A → Z) :
  consistent_cmp cmp → Total (not_after cmp).
Proof.
  intros [Hsgn _] a b. unfold not_after.
  specialize (Hsgn a b).
  destruct (Z.sgn_spec (cmp a b)) as [[? ?]|[[? ?]|[? ?]]],
           (Z.sgn_spec (cmp b a)) as [[? ?]|[[? ?]|[? ?]]]; lia.
Qed.

Lemma consistent_transitive {A : Type} (cmp : A → A → Z) :
  consistent_cmp cmp → Transitive (not_after cmp).
Proof. intros [_ Htr] a b c. unfold not_after. apply Htr. Qed.

Lemma stable_qsort_permutation {A : Type} (cmp : A → A → Z) (l : list A) :
  stable_qsort cmp l ≡ₚ l.
Proof. apply merge_sort_Permutation. Qed.

Lemma stable_qsort_sorted {A : Type} (cmp : A → A → Z) (l : list A) :
  consistent_cmp cmp → StronglySorted (λ a b, cmp a b ≤ 0) (stable_qsort cmp l).
Proof.
  intros Hc. pose proof (consistent_total cmp Hc). pose proof (consistent_transitive cmp Hc).
  apply (StronglySorted_merge_sort (not_after cmp)).
Qed.

Lemma backward_qsort_permutation {A : Type} (cmp : A → A → Z) (l : list A) :
  backward_qsort cmp l ≡ₚ l.
Proof.
  unfold backward_qsort. rewrite merge_sort_Permutation. apply reverse_Permutation.
Qed.

Lemma backward_qsort_sorted {A : Type} (cmp : A → A → Z) (l : list A) :
  consistent_cmp cmp → StronglySorted (λ a b, cmp a b ≤ 0) (backward_qsort cmp l).
Proof.
  intros Hc. pose proof (consistent_total cmp Hc). pose proof (consistent_transitive cmp Hc).
  apply (StronglySorted_merge_sort (not_after cmp)).
Qed.

Definition model_libc : Libc :=
  {| qsort := @stable_qsort;
     qsort_permutation := @stable_qsort_permutation;
     qsort_sorted := @stable_qsort_sorted;
     log2 := model_log2;
     printf_nan := "-nan" |}.

Definition backward_libc : Libc :=
  {| qsort := @backward_qsort;
     qsort_permutation := @backward_qsort_permutation;
     qsort_sorted := @backward_qsort_sorted;
     log2 := model_log2;
     printf_nan := "-nan" |}.

(** * Properties *)

(** ** Arithmetic of [long long] *)

Lemma wrap_ll_range (z : Z) : in_ll (wrap_ll z).
Proof.
  unfold in_ll, wrap_ll.
  pose proof (Z.mod_pos_bound (z + 2 ^ 63) (2 ^ 64) ltac:(lia)). lia.
Qed.

Lemma wrap_ll_id (z : Z) : in_ll z → wrap_ll z = z.
Proof.
  unfold in_ll, wrap_ll. intros Hz.
  rewrite Z.mod_small by lia. lia.
Qed.

Lemma wrap_ll_add_l (a b : Z) : wrap_ll (wrap_ll a + b) = wrap_ll (a + b).
Proof.
  unfold wrap_ll. f_equal.
  replace ((a + 2 ^ 63) mod 2 ^ 64 - 2 ^ 63 + b + 2 ^ 63)
    with ((a + 2 ^ 63) mod 2 ^ 64 + b) by lia.
  rewrite Z.add_mod_idemp_l by lia. f_equal. lia.
Qed.

Lemma get_time_us_range (ts : timespec) : in_ll (get_time_us ts).
Proof. apply wrap_ll_range. Qed.

(** ** The store under [record_timing] *)

Lemma record_timing_full now label b :
  (MAX_FUNS_TO_BENCH ≤ timing_index b)%nat →
  record_timing now label b = (b, capacity_diagnostic).
Proof.
  intros Hfull. unfold record_timing.
  rewrite bool_decide_eq_true_2 by exact Hfull. reflexivity.
Qed.

Lemma record_timing_room now label b :
  (timing_index b < MAX_FUNS_TO_BENCH)%nat →
  record_timing now label b =
    ({| total_time := wrap_ll (total_time b + wrap_ll (get_time_us now - start_time b));
        start_time := start_time b;
        timings :=
          alter (set_function_name (λ buf, store_bytes buf (label_stores label)))
            (timing_index b)
            (alter (set_time_us (wrap_ll (get_time_us now - start_time b)))
               (timing_index b) (timings b));
        timing_index := S (timing_index b) |}, EmptyString).
Proof.
  intros Hroom. unfold record_timing.
  rewrite bool_decide_eq_false_2 by lia. reflexivity.
Qed.

Lemma timings_at_lookup b i t :
  timings b !! i = Some t → timings_at b i = t.
Proof. intros Hi. unfold timings_at. rewrite nth_lookup, Hi. reflexivity. Qed.

Lemma record_timing_slot now label b :
  wf_benchmark b →
  (timing_index b < MAX_FUNS_TO_BENCH)%nat →
  timings (fst (record_timing now label b)) !! timing_index b
    = Some (recorded_entry now label b).
Proof.
  intros (Hlen & _ & _) Hroom.
  rewrite record_timing_room by exact Hroom. cbn [fst timings].
  destruct (lookup_lt_is_Some_2 (timings b) (timing_index b)) as [t Ht]; [lia|].
  rewrite !list_lookup_alter. rewrite !decide_True by reflexivity.
  rewrite Ht. cbn. unfold recorded_entry.
  rewrite (timings_at_lookup _ _ _ Ht). reflexivity.
Qed.

Lemma record_timing_stored now label b :
  wf_benchmark b →
  (timing_index b < MAX_FUNS_TO_BENCH)%nat →
  stored (fst (record_timing now label b)) = stored b ++ [recorded_entry now label b].
Proof.
  intros Hwf Hroom.
  pose proof (record_timing_slot now label b Hwf Hroom) as Hslot.
  unfold stored.
  replace (timing_index (fst (record_timing now label b))) with (S (timing_index b))
    by (rewrite record_timing_room by exact Hroom; reflexivity).
  rewrite (take_S_r _ _ _ Hslot). f_equal.
  rewrite record_timing_room by exact Hroom. cbn [fst timings].
  rewrite !take_alter_ge by lia. reflexivity.
Qed.

Lemma sum_time_us_app l1 l2 :
  sum_time_us (l1 ++ l2) = sum_time_us l1 + sum_time_us l2.
Proof.
  unfold sum_time_us. induction l1 as [|t l1 IH]; cbn; [reflexivity|].
  rewrite IH. lia.
Qed.

Lemma sum_time_us_permutation l1 l2 :
  l1 ≡ₚ l2 → sum_time_us l1 = sum_time_us l2.
Proof.
  unfold sum_time_us.
  induction 1 as [|x l l' _ IH|x y l|l l' l'' _ IH1 _ IH2]; cbn; lia.
Qed.

(** ** Well-formedness is kept by every call *)

Lemma store_bytes_length ws buf : length (store_bytes buf ws) = length buf.
Proof.
  unfold store_bytes. revert buf.
  induction ws as [|w ws IH]; intros buf; cbn; [reflexivity|].
  rewrite IH. apply length_insert.
Qed.

Lemma wf_static_benchmarks : wf_benchmark static_benchmarks.
Proof.
  unfold wf_benchmark, static_benchmarks; cbn [timings timing_index].
  split; [|split].
  - apply length_replicate.
  - apply Forall_replicate. apply length_replicate.
  - apply Nat.le_0_l.
Qed.

Lemma wf_benchmark_init b : wf_benchmark b → wf_benchmark (benchmark_init b).
Proof.
  intros (Hlen & Hall & _). unfold wf_benchmark, benchmark_init; cbn [timings timing_index].
  split; [exact Hlen|split; [exact Hall|apply Nat.le_0_l]].
Qed.

Lemma wf_START_TIMING now b : wf_benchmark b → wf_benchmark (START_TIMING now b).
Proof. intros Hwf. exact Hwf. Qed.

Lemma wf_record_timing now label b :
  wf_benchmark b → wf_benchmark (fst (record_timing now label b)).
Proof.
  intros Hwf. pose proof Hwf as (Hlen & Hall & Hidx).
  destruct (decide (timing_index b < MAX_FUNS_TO_BENCH)%nat) as [Hroom|Hfull].
  - rewrite record_timing_room by exact Hroom.
    unfold wf_benchmark; cbn [fst timings timing_index]. repeat split.
    + rewrite !length_alter. exact Hlen.
    + apply Forall_alter; [apply Forall_alter; [exact Hall|]|].
      * intros t _ Ht. exact Ht.
      * intros t _ Ht. unfold wf_time_info, set_function_name in *; cbn.
        rewrite store_bytes_length. exact Ht.
    + lia.
  - rewrite record_timing_full by lia. exact Hwf.
Qed.

Section StoreInvariant.
Context `{Libc}.

Lemma ranked_sort_timings b :
  timings (ranked_sort b) ≡ₚ timings b.
Proof.
  unfold ranked_sort; cbn [timings].
  rewrite qsort_permutation. rewrite take_drop. reflexivity.
Qed.

Lemma wf_ranked_sort b : wf_benchmark b → wf_benchmark (ranked_sort b).
Proof.
  intros (Hlen & Hall & Hidx). unfold wf_benchmark. repeat split.
  - rewrite (Permutation_length (ranked_sort_timings b)). exact Hlen.
  - rewrite ranked_sort_timings. exact Hall.
  - exact Hidx.
Qed.

Lemma stored_ranked_sort b :
  wf_benchmark b →
  stored (ranked_sort b) = qsort compare_times (stored b).
Proof.
  intros (Hlen & _ & Hidx). unfold stored, ranked_sort; cbn [timings timing_index].
  apply take_app_length'.
  rewrite (Permutation_length (qsort_permutation _ _)).
  rewrite length_take. lia.
Qed.

Lemma print_bench_ranked_store b b' o :
  print_bench_ranked b = Some (b', o) →
  (timing_index b = 0%nat ∧ b' = b) ∨ (timing_index b ≠ 0%nat ∧ b' = ranked_sort b).
Proof.
  unfold print_bench_ranked. case_bool_decide as Hz.
  - intros [= <- _]. left. split; [exact Hz|reflexivity].
  - destruct (for_each_opt _ _); cbn; [|discriminate].
    intros [= <- _]. right. split; [exact Hz|reflexivity].
Qed.

Lemma wf_step o b b' c :
  wf_benchmark b → step o b = Some (b', c) → wf_benchmark b'.
Proof.
  intros Hwf. destruct o; cbn.
  - intros [= <- _]. apply wf_benchmark_init, Hwf.
  - intros [= <- _]. apply wf_START_TIMING, Hwf.
  - intros [= <- _]. apply wf_record_timing, Hwf.
  - intros [= <- _]. exact Hwf.
  - intros [= <- _]. exact Hwf.
  - destruct (print_bench_ranked b) as [[b1 o1]|] eqn:Hr; cbn; [|discriminate].
    intros [= <- _].
    destruct (print_bench_ranked_store _ _ _ Hr) as [[_ ->]|[_ ->]];
      [exact Hwf|apply wf_ranked_sort, Hwf].
  - intros [= <- _]. exact Hwf.
Qed.

Lemma total_is_sum_init b : total_is_sum (benchmark_init b).
Proof. reflexivity. Qed.

Lemma total_is_sum_record now label b :
  wf_benchmark b → total_is_sum b → total_is_sum (fst (record_timing now label b)).
Proof.
  intros Hwf Hinv.
  destruct (decide (timing_index b < MAX_FUNS_TO_BENCH)%nat) as [Hroom|Hfull].
  - unfold total_is_sum. rewrite record_timing_stored by assumption.
    rewrite sum_time_us_app.
    rewrite record_timing_room by exact Hroom. cbn [fst total_time].
    rewrite Hinv, wrap_ll_add_l. f_equal. cbn. lia.
  - rewrite record_timing_full by lia. exact Hinv.
Qed.

Lemma total_is_sum_ranked_sort b :
  wf_benchmark b → total_is_sum b → total_is_sum (ranked_sort b).
Proof.
  intros Hwf Hinv. unfold total_is_sum.
  rewrite stored_ranked_sort by exact Hwf.
  rewrite (sum_time_us_permutation _ _ (qsort_permutation _ _)).
  exact Hinv.
Qed.

Lemma total_is_sum_step o b b' c :
  wf_benchmark b → total_is_sum b → step o b = Some (b', c) → total_is_sum b'.
Proof.
  intros Hwf Hinv. destruct o; cbn.
  - intros [= <- _]. apply total_is_sum_init.
  - intros [= <- _]. exact Hinv.
  - intros [= <- _]. apply total_is_sum_record; assumption.
  - intros [= <- _]. exact Hinv.
  - intros [= <- _]. exact Hinv.
  - destruct (print_bench_ranked b) as [[b1 o1]|] eqn:Hr; cbn; [|discriminate].
    intros [= <- _].
    destruct (print_bench_ranked_store _ _ _ Hr) as [[_ ->]|[_ ->]];
      [exact Hinv|apply total_is_sum_ranked_sort; assumption].
  - intros [= <- _]. exact Hinv.
Qed.

Lemma step_index o b b' c :
  wf_benchmark b → o ≠ OpInit → step o b = Some (b', c) →
  timing_index b' = Nat.min (timing_index b + is_end o) MAX_FUNS_TO_BENCH ∧
  recorded o c = (timing_index b' - timing_index b)%nat.
Proof.
  intros (_ & _ & Hidx) Hinit.
  destruct o; cbn [step is_end recorded]; try congruence.
  - intros [= <- <-]. cbn. lia.
  - intros [= <- <-]. cbn [err].
    destruct (decide (timing_index b < MAX_FUNS_TO_BENCH)%nat) as [Hroom|Hfull].
    + unfold END_TIMING. rewrite record_timing_room by exact Hroom.
      cbn [fst snd timing_index]. cbn [String.eqb]. lia.
    + unfold END_TIMING. rewrite record_timing_full by lia.
      cbn [fst snd]. replace (String.eqb capacity_diagnostic EmptyString) with false
        by reflexivity. lia.
  - intros [= <- <-]. lia.
  - intros [= <- <-]. lia.
  - destruct (print_bench_ranked b) as [[b1 o1]|] eqn:Hr; cbn; [|discriminate].
    intros [= <- <-].
    destruct (print_bench_ranked_store _ _ _ Hr) as [[_ ->]|[_ ->]]; cbn; lia.
  - intros [= <- <-]. lia.
Qed.

Lemma run_invariant ops : ∀ b b' c n,
  wf_benchmark b → OpInit ∉ ops → run ops b = Some (b', c, n) →
  timing_index b' = Nat.min (timing_index b + count_ends ops) MAX_FUNS_TO_BENCH ∧
  n = (timing_index b' - timing_index b)%nat ∧
  wf_benchmark b' ∧
  (total_is_sum b → total_is_sum b').
Proof.
  induction ops as [|o ops IH]; intros b b' c n Hwf Hnot; cbn [run count_ends foldr].
  - intros [= <- _ <-]. pose proof Hwf as (_ & _ & Hidx).
    split; [lia|]. split; [lia|]. split; [exact Hwf|tauto].
  - apply not_elem_of_cons in Hnot as [Ho Hops].
    destruct (step o b) as [[b1 c1]|] eqn:Hstep; cbn; [|discriminate].
    destruct (run ops b1) as [[[b2 c2] n2]|] eqn:Hrun; cbn; [|discriminate].
    intros [= <- _ <-].
    pose proof (wf_step _ _ _ _ Hwf Hstep) as Hwf1.
    destruct (step_index _ _ _ _ Hwf (not_eq_sym Ho) Hstep) as [Hi1 Hr1].
    destruct (IH _ _ _ _ Hwf1 Hops Hrun) as (Hi2 & Hn2 & Hwf2 & Hsum2).
    fold (count_ends ops) in *.
    pose proof Hwf as (_ & _ & Hidx).
    split; [lia|]. split; [lia|]. split; [exact Hwf2|].
    intros Hinv. apply Hsum2. exact (total_is_sum_step _ _ _ _ Hwf Hinv Hstep).
Qed.
End StoreInvariant.

(** ** The invariant along a program *)

Lemma wf_abc_store : wf_benchmark abc_store.
Proof.
  unfold abc_store, END_TIMING.
  repeat first [apply wf_record_timing | apply wf_START_TIMING | apply wf_benchmark_init].
  apply wf_static_benchmarks.
Qed.

Section Recording.
Context `{Libc}.

(** C4. From [benchmark_init], after any program without a further
    [benchmark_init] in which [n] recordings succeeded: [n] is the number
    of [END_TIMING] calls capped at [MAX_FUNS_TO_BENCH], [timing_index] is
    [n], and [total_time] is the sum of [time_us] over
    [timings[0 .. timing_index)] in [long long] arithmetic (the plain
    integer sum whenever that sum is representable). Every single call,
    [benchmark_init] and the sorting [print_bench_ranked] included, keeps
    that equality. ([run] and [step] are defined as long as no call of
    [print_bench_ranked] converts an unrepresentable [double] to [int].) *)
Theorem total_time_is_sum_of_stored :
  (∀ b0 ops b c n,
     wf_benchmark b0 → OpInit ∉ ops →
     run ops (benchmark_init b0) = Some (b, c, n) →
     n = Nat.min (count_ends ops) MAX_FUNS_TO_BENCH ∧
     (n ≤ MAX_FUNS_TO_BENCH)%nat ∧
     timing_index b = n ∧
     total_time b = wrap_ll (sum_time_us (take (timing_index b) (timings b))) ∧
     (in_ll (sum_time_us (take (timing_index b) (timings b))) →
      total_time b = sum_time_us (take (timing_index b) (timings b)))) ∧
  (∀ o b b' c,
     wf_benchmark b →
     total_time b = wrap_ll (sum_time_us (take (timing_index b) (timings b))) →
     step o b = Some (b', c) →
     total_time b' = wrap_ll (sum_time_us (take (timing_index b') (timings b')))).
Proof.
  split.
  - intros b0 ops b c n Hwf Hnot Hrun.
    destruct (run_invariant ops _ _ _ _ (wf_benchmark_init _ Hwf) Hnot Hrun)
      as (Hidx & Hn & Hwf' & Hsum).
    cbn [benchmark_init timing_index] in Hidx, Hn.
    specialize (Hsum (total_is_sum_init b0)). unfold total_is_sum, stored in Hsum.
    split; [lia|]. split; [lia|]. split; [lia|]. split; [exact Hsum|].
    intros Hrange. rewrite Hsum. apply wrap_ll_id, Hrange.
  - intros o b b' c Hwf Hinv Hstep.
    exact (total_is_sum_step o b b' c Hwf Hinv Hstep).
Qed.

(** C5. With [timing_index] at the capacity, [record_timing] returns the
    store as it was ([timing_index], [total_time] and every entry), writes
    its diagnostic to [stderr], and returns to its caller: the call is an
    ordinary step of the program, after which the store is still there. *)
Theorem record_timing_at_capacity now label b :
  timing_index b = MAX_FUNS_TO_BENCH →
  fst (record_timing now label b) = b ∧
  timing_index (fst (record_timing now label b)) = MAX_FUNS_TO_BENCH ∧
  total_time (fst (record_timing now label b)) = total_time b ∧
  timings (fst (record_timing now label b)) = timings b ∧
  snd (record_timing now label b) = capacity_diagnostic ∧
  capacity_diagnostic ≠ EmptyString ∧
  step (OpEnd now label) b
    = Some (b, {| out := EmptyString; err := capacity_diagnostic |}).
Proof.
  intros Hfull.
  assert (Hr : record_timing now label b = (b, capacity_diagnostic))
    by (apply record_timing_full; lia).
  cbn [step]. unfold END_TIMING. rewrite Hr. cbn [fst snd].
  repeat split; try assumption. discriminate.
Qed.

(** C10. [record_timing] leaves [start_time] as it is. So a second
    [END_TIMING] with no [START_TIMING] between records a duration
    measured from the same start instant as the first, and an
    [END_TIMING] right after [benchmark_init] measures from instant 0. *)
Theorem record_timing_keeps_start_time :
  (∀ now label b,
     start_time (fst (record_timing now label b)) = start_time b) ∧
  (∀ now1 label1 now2 label2 b,
     wf_benchmark b → (S (timing_index b) < MAX_FUNS_TO_BENCH)%nat →
     let b1 := fst (END_TIMING now1 label1 b) in
     let b2 := fst (END_TIMING now2 label2 b1) in
     time_us (timings_at b1 (timing_index b))
       = wrap_ll (get_time_us now1 - start_time b) ∧
     time_us (timings_at b2 (S (timing_index b)))
       = wrap_ll (get_time_us now2 - start_time b) ∧
     timing_index b2 = S (S (timing_index b))) ∧
  (∀ now label b,
     wf_benchmark b →
     time_us (timings_at (fst (END_TIMING now label (benchmark_init b))) 0)
       = get_time_us now).
Proof.
  assert (Hstart : ∀ now label b,
            start_time (fst (record_timing now label b)) = start_time b).
  { intros now label b. unfold record_timing. case_bool_decide; reflexivity. }
  assert (Hidx : ∀ now label b, (timing_index b < MAX_FUNS_TO_BENCH)%nat →
            timing_index (fst (record_timing now label b)) = S (timing_index b)).
  { intros now label b Hroom. rewrite record_timing_room by exact Hroom. reflexivity. }
  split; [exact Hstart|split].
  - intros now1 label1 now2 label2 b Hwf Hroom b1 b2. subst b1 b2. unfold END_TIMING.
    pose proof (wf_record_timing now1 label1 b Hwf) as Hwf1.
    assert (Hroom1 : (timing_index b < MAX_FUNS_TO_BENCH)%nat) by lia.
    pose proof (record_timing_slot now1 label1 b Hwf Hroom1) as Hs1.
    pose proof (record_timing_slot now2 label2 _ Hwf1) as Hs2.
    rewrite Hidx in Hs2 by exact Hroom1. specialize (Hs2 Hroom).
    rewrite (timings_at_lookup _ _ _ Hs1), (timings_at_lookup _ _ _ Hs2).
    cbn [recorded_entry time_us]. rewrite Hstart.
    split; [reflexivity|]. split; [reflexivity|].
    rewrite Hidx; rewrite Hidx by exact Hroom1; [reflexivity|exact Hroom].
  - intros now label b Hwf. unfold END_TIMING.
    pose proof (wf_benchmark_init b Hwf) as Hwf0.
    pose proof (record_timing_slot now label _ Hwf0) as Hs.
    cbn [benchmark_init timing_index] in Hs.
    assert (Hroom : (0 < MAX_FUNS_TO_BENCH)%nat) by (unfold MAX_FUNS_TO_BENCH; lia).
    specialize (Hs Hroom).
    rewrite (timings_at_lookup _ _ _ Hs). cbn [recorded_entry time_us benchmark_init start_time].
    rewrite Z.sub_0_r. apply wrap_ll_id, get_time_us_range.
Qed.
End Recording.

Lemma abc_program_has_no_init : OpInit ∉ abc_program.
Proof.
  unfold abc_program.
  repeat (apply not_elem_of_cons; split; [discriminate|]). apply not_elem_of_nil.
Defined.

Lemma total_time_is_sum_of_stored_witness :
  wf_benchmark static_benchmarks ∧
  (OpInit ∉ abc_program) ∧
  (@run model_libc abc_program (benchmark_init static_benchmarks)
    = Some (abc_store, silent, 3%nat)) ∧
  (3%nat = Nat.min (count_ends abc_program) MAX_FUNS_TO_BENCH ∧
   (3 ≤ MAX_FUNS_TO_BENCH)%nat ∧
   timing_index abc_store = 3%nat ∧
   total_time abc_store
     = wrap_ll (sum_time_us (take (timing_index abc_store) (timings abc_store))) ∧
   (in_ll (sum_time_us (take (timing_index abc_store) (timings abc_store))) →
    total_time abc_store
      = sum_time_us (take (timing_index abc_store) (timings abc_store)))) ∧
  total_time abc_store = 6000.
Proof.
  assert (Hrun : @run model_libc abc_program (benchmark_init static_benchmarks)
                 = Some (abc_store, silent, 3%nat)) by (vm_compute; reflexivity).
  split; [exact wf_static_benchmarks|].
  split; [exact abc_program_has_no_init|].
  split; [exact Hrun|].
  split; [|vm_compute; reflexivity].
  exact (proj1 (@total_time_is_sum_of_stored model_libc) static_benchmarks abc_program
           abc_store silent 3%nat wf_static_benchmarks abc_program_has_no_init Hrun).
Defined.

Lemma record_timing_at_capacity_witness :
  timing_index full_store = MAX_FUNS_TO_BENCH ∧
  fst (record_timing (at_us 5) "late" full_store) = full_store ∧
  snd (record_timing (at_us 5) "late" full_store) = capacity_diagnostic.
Proof.
  split; [reflexivity|].
  destruct (@record_timing_at_capacity model_libc (at_us 5) "late" full_store eq_refl)
    as (Hst & _ & _ & _ & Herr & _).
  split; [exact Hst|exact Herr].
Defined.

Lemma record_timing_keeps_start_time_witness :
  wf_benchmark static_benchmarks ∧
  (S (timing_index (START_TIMING (at_us 100) static_benchmarks)) < MAX_FUNS_TO_BENCH)%nat ∧
  time_us (timings_at
    (fst (END_TIMING (at_us 250) "first"
       (START_TIMING (at_us 100) static_benchmarks))) 0) = 150 ∧
  time_us (timings_at
    (fst (END_TIMING (at_us 400) "second"
       (fst (END_TIMING (at_us 250) "first"
          (START_TIMING (at_us 100) static_benchmarks))))) 1) = 300 ∧
  time_us (timings_at
    (fst (END_TIMING (at_us 7) "unstarted" (benchmark_init static_benchmarks))) 0) = 7.
Proof.
  split; [exact wf_static_benchmarks|].
  split; [unfold MAX_FUNS_TO_BENCH; cbn; lia|].
  destruct record_timing_keeps_start_time as (_ & Htwice & Hinit).
  destruct (Htwice (at_us 250) "first"%string (at_us 400) "second"%string
              (START_TIMING (at_us 100) static_benchmarks)
              (wf_START_TIMING _ _ wf_static_benchmarks)
              ltac:(unfold MAX_FUNS_TO_BENCH; cbn; lia)) as (H1 & H2 & _).
  split; [etrans; [exact H1|reflexivity]|].
  split; [etrans; [exact H2|reflexivity]|].
  etrans; [exact (Hinit (at_us 7) "unstarted"%string static_benchmarks wf_static_benchmarks)|].
  reflexivity.
Defined.

(** ** Labels: [strncpy] and the terminator *)

Lemma padded_copy_length src n : length (padded_copy src n) = n.
Proof.
  unfold padded_copy. rewrite length_app, length_take, length_replicate. lia.
Qed.

Lemma store_bytes_cons buf w ws :
  store_bytes buf (w :: ws) = store_bytes (<[fst w := snd w]> buf) ws.
Proof. reflexivity. Qed.

Lemma store_bytes_app buf ws1 ws2 :
  store_bytes buf (ws1 ++ ws2) = store_bytes (store_bytes buf ws1) ws2.
Proof. unfold store_bytes. apply foldl_app. Qed.

Lemma take_S_insert (buf : list ascii) off c :
  (off < length buf)%nat → take (S off) (<[off := c]> buf) = take off buf ++ [c].
Proof.
  intros Hoff.
  rewrite (take_S_r _ _ c) by (apply list_lookup_insert_eq; exact Hoff).
  rewrite take_insert_ge by lia. reflexivity.
Qed.

Lemma padded_copy_nil k : padded_copy [] (S k) = NUL :: padded_copy [] k.
Proof.
  unfold padded_copy. cbn [c_chars length]. rewrite !take_nil, !Nat.sub_0_r.
  reflexivity.
Qed.

Lemma padded_copy_nul c rest k :
  is_nul c = true → padded_copy (c :: rest) (S k) = NUL :: padded_copy [] k.
Proof.
  intros Hc. unfold padded_copy. cbn [c_chars]. rewrite Hc. apply padded_copy_nil.
Qed.

Lemma padded_copy_char c rest k :
  is_nul c = false → padded_copy (c :: rest) (S k) = c :: padded_copy rest k.
Proof. intros Hc. unfold padded_copy. cbn [c_chars]. rewrite Hc. reflexivity. Qed.

Lemma strncpy_stores_spec n : ∀ src off buf,
  (off + n ≤ length buf)%nat →
  store_bytes buf (strncpy_stores src n off)
    = take off buf ++ padded_copy src n ++ drop (off + n) buf.
Proof.
  induction n as [|k IH]; intros src off buf Hlen.
  - cbn. rewrite Nat.add_0_r. unfold padded_copy. cbn.
    rewrite take_0. cbn. symmetry. apply take_drop.
  - assert (Hstep : ∀ c rest,
              store_bytes (<[off := c]> buf) (strncpy_stores rest k (S off))
              = take off buf ++ (c :: padded_copy rest k) ++ drop (off + S k) buf).
    { intros c rest. rewrite IH by (rewrite length_insert; lia).
      rewrite take_S_insert by lia.
      rewrite drop_insert_lt by lia.
      replace (off + S k)%nat with (S off + k)%nat by lia.
      rewrite <- app_assoc. reflexivity. }
    destruct src as [|c rest]; cbn [strncpy_stores].
    + rewrite store_bytes_cons. cbn [fst snd]. rewrite Hstep, padded_copy_nil.
      reflexivity.
    + destruct (is_nul c) eqn:Hc; rewrite store_bytes_cons; cbn [fst snd]; rewrite Hstep.
      * rewrite padded_copy_nul by exact Hc. reflexivity.
      * rewrite padded_copy_char by exact Hc. reflexivity.
Qed.

Lemma strncpy_stores_bounds n : ∀ src off,
  Forall (λ w, (off ≤ fst w < off + n)%nat) (strncpy_stores src n off).
Proof.
  induction n as [|k IH]; intros src off; cbn; [constructor|].
  assert (Hrest : ∀ rest, Forall (λ w, (off ≤ fst w < off + S k)%nat)
                            (strncpy_stores rest k (S off))).
  { intros rest. eapply Forall_impl; [apply IH|]. cbn. intros w ?. lia. }
  destruct src as [|c rest]; [|destruct (is_nul c)];
    (constructor; [cbn; lia|apply Hrest]).
Qed.

Lemma label_stores_in_bounds label :
  Forall (λ w, (fst w < MAX_FUNS_NAME_LENGTH)%nat) (label_stores label).
Proof.
  unfold label_stores. apply Forall_app. split.
  - eapply Forall_impl; [apply strncpy_stores_bounds|].
    cbn. unfold MAX_FUNS_NAME_LENGTH. intros w ?. lia.
  - constructor; [cbn; unfold MAX_FUNS_NAME_LENGTH; lia|constructor].
Qed.

(** The buffer after lines 312-317. *)
Lemma label_stores_result label buf :
  length buf = MAX_FUNS_NAME_LENGTH →
  store_bytes buf (label_stores label)
    = padded_copy (list_ascii_of_string label) (MAX_FUNS_NAME_LENGTH - 1) ++ [NUL].
Proof.
  intros Hlen. unfold label_stores. rewrite store_bytes_app.
  rewrite strncpy_stores_spec by (rewrite Hlen; unfold MAX_FUNS_NAME_LENGTH; lia).
  rewrite take_0. cbn [app store_bytes foldl fst snd Nat.add].
  set (p := padded_copy _ _).
  assert (Hp : length p = (MAX_FUNS_NAME_LENGTH - 1)%nat) by apply padded_copy_length.
  replace (MAX_FUNS_NAME_LENGTH - 1)%nat with (length p + 0)%nat at 1 by lia.
  rewrite insert_app_r. f_equal.
  destruct (drop (MAX_FUNS_NAME_LENGTH - 1) buf) as [|x [|y tl]] eqn:Hd.
  - apply (f_equal length) in Hd. rewrite length_drop, Hlen in Hd.
    unfold MAX_FUNS_NAME_LENGTH in Hd. cbn in Hd. lia.
  - reflexivity.
  - apply (f_equal length) in Hd. rewrite length_drop, Hlen in Hd.
    unfold MAX_FUNS_NAME_LENGTH in Hd. cbn in Hd. lia.
Qed.

Lemma c_chars_no_nul buf : Forall (λ c, is_nul c = false) (c_chars buf).
Proof.
  induction buf as [|c rest IH]; cbn; [constructor|].
  destruct (is_nul c) eqn:Hc; constructor; assumption.
Qed.

Lemma c_chars_terminated (text : list ascii) m :
  Forall (λ c, is_nul c = false) text →
  c_chars (text ++ replicate m NUL ++ [NUL]) = text.
Proof.
  induction 1 as [|c rest Hc _ IH]; cbn.
  - destruct m; reflexivity.
  - rewrite Hc, IH. reflexivity.
Qed.

Lemma c_chars_id (text : list ascii) :
  NUL ∉ text → c_chars text = text.
Proof.
  induction text as [|c rest IH]; cbn; [reflexivity|].
  intros Hnot. apply not_elem_of_cons in Hnot as [Hc Hrest].
  unfold is_nul. destruct (Ascii.eqb_spec c NUL) as [->|_]; [congruence|].
  rewrite IH by exact Hrest. reflexivity.
Qed.

Lemma string_of_take s : ∀ n,
  string_of_list_ascii (take n (list_ascii_of_string s)) = String.substring 0 n s.
Proof.
  induction s as [|c s IH]; intros [|n]; cbn; try reflexivity.
  rewrite IH. reflexivity.
Qed.

Lemma string_of_list_ascii_length l :
  String.length (string_of_list_ascii l) = length l.
Proof. induction l as [|c l IH]; cbn; [reflexivity|]. rewrite IH. reflexivity. Qed.

Lemma list_ascii_of_string_length s :
  length (list_ascii_of_string s) = String.length s.
Proof. induction s as [|c s IH]; cbn; [reflexivity|]. rewrite IH. reflexivity. Qed.

(** C9. Whatever the length of the caller's label, the buffer of the
    recorded entry is written only at offsets below
    [MAX_FUNS_NAME_LENGTH], keeps its size, ends with a NUL, and holds as
    text the first [MAX_FUNS_NAME_LENGTH - 1] bytes of the label (the
    whole label when it is shorter): a label of [MAX_FUNS_NAME_LENGTH]
    bytes or more is cut to exactly [MAX_FUNS_NAME_LENGTH - 1]. *)
Theorem stored_label_is_terminated now label b :
  wf_benchmark b → (timing_index b < MAX_FUNS_TO_BENCH)%nat →
  let old := function_name (timings_at b (timing_index b)) in
  let buf := function_name (timings_at (fst (record_timing now label b)) (timing_index b)) in
  buf = store_bytes old (label_stores label) ∧
  Forall (λ w, (fst w < length old)%nat) (label_stores label) ∧
  length buf = MAX_FUNS_NAME_LENGTH ∧
  buf !! (MAX_FUNS_NAME_LENGTH - 1)%nat = Some NUL ∧
  (String.length (c_str buf) < MAX_FUNS_NAME_LENGTH)%nat ∧
  c_str buf = string_of_list_ascii
                (take (MAX_FUNS_NAME_LENGTH - 1) (c_chars (list_ascii_of_string label))) ∧
  (NUL ∉ list_ascii_of_string label →
   c_str buf = String.substring 0 (MAX_FUNS_NAME_LENGTH - 1) label ∧
   ((MAX_FUNS_NAME_LENGTH ≤ String.length label)%nat →
    String.length (c_str buf) = (MAX_FUNS_NAME_LENGTH - 1)%nat)).
Proof.
  intros Hwf Hroom old buf.
  pose proof Hwf as (Hlen & Hall & _).
  destruct (lookup_lt_is_Some_2 (timings b) (timing_index b)) as [t Ht]; [lia|].
  assert (Hold : length old = MAX_FUNS_NAME_LENGTH).
  { subst old. rewrite (timings_at_lookup _ _ _ Ht).
    exact (proj1 (Forall_lookup _ _) Hall _ _ Ht). }
  assert (Hbuf : buf = store_bytes old (label_stores label)).
  { subst buf old.
    rewrite (timings_at_lookup _ _ _ (record_timing_slot now label b Hwf Hroom)).
    reflexivity. }
  assert (Htext : c_chars buf
            = take (MAX_FUNS_NAME_LENGTH - 1) (c_chars (list_ascii_of_string label))).
  { rewrite Hbuf, label_stores_result by exact Hold. unfold padded_copy.
    rewrite <- app_assoc. apply c_chars_terminated.
    apply Forall_take, c_chars_no_nul. }
  split; [exact Hbuf|].
  split; [rewrite Hold; apply label_stores_in_bounds|].
  split; [rewrite Hbuf, store_bytes_length; exact Hold|].
  split.
  { rewrite Hbuf, label_stores_result by exact Hold.
    rewrite lookup_app_r by (rewrite padded_copy_length; lia).
    rewrite padded_copy_length, Nat.sub_diag. reflexivity. }
  split.
  { unfold c_str. rewrite string_of_list_ascii_length, Htext, length_take.
    unfold MAX_FUNS_NAME_LENGTH. lia. }
  split; [unfold c_str; rewrite Htext; reflexivity|].
  intros Hnot.
  assert (Hsub : c_str buf = String.substring 0 (MAX_FUNS_NAME_LENGTH - 1) label).
  { unfold c_str. rewrite Htext, c_chars_id by exact Hnot. apply string_of_take. }
  split; [exact Hsub|].
  intros Hlong. unfold c_str.
  rewrite string_of_list_ascii_length, Htext, c_chars_id by exact Hnot.
  rewrite length_take, list_ascii_of_string_length. lia.
Qed.

Lemma stored_label_is_terminated_witness :
  wf_benchmark abc_store ∧
  (timing_index abc_store < MAX_FUNS_TO_BENCH)%nat ∧
  (NUL ∉ list_ascii_of_string long_label) ∧
  (MAX_FUNS_NAME_LENGTH ≤ String.length long_label)%nat ∧
  c_str (function_name
           (timings_at (fst (record_timing (at_us 9000) long_label abc_store)) 3))
    = rep 9 "0123456789" +++ "012345678" ∧
  String.length
    (c_str (function_name
              (timings_at (fst (record_timing (at_us 9000) long_label abc_store)) 3)))
    = 99%nat.
Proof.
  assert (Hroom : (timing_index abc_store < MAX_FUNS_TO_BENCH)%nat)
    by (vm_compute; lia).
  assert (Hnot : NUL ∉ list_ascii_of_string long_label).
  { rewrite list_elem_of_In. vm_compute. intuition discriminate. }
  assert (Hlong : (MAX_FUNS_NAME_LENGTH ≤ String.length long_label)%nat)
    by (vm_compute; lia).
  destruct (stored_label_is_terminated (at_us 9000) long_label abc_store
              wf_abc_store Hroom) as (_ & _ & _ & _ & _ & _ & Htext).
  destruct (Htext Hnot) as [Hsub Hlen].
  split; [exact wf_abc_store|]. split; [exact Hroom|].
  split; [exact Hnot|]. split; [exact Hlong|].
  split.
  - etrans; [exact Hsub|]. vm_compute. reflexivity.
  - exact (Hlen Hlong).
Defined.

(** ** [get_scale] picks the largest scale that fits *)

Lemma get_scale_loop_spec v k :
  (∃ i, (i < k)%nat ∧ scale_fits v (scales_at i) = true ∧
        (∀ j, (i < j < k)%nat → scale_fits v (scales_at j) = false) ∧
        get_scale_loop k v = scales_at i) ∨
  ((∀ j, (j < k)%nat → scale_fits v (scales_at j) = false) ∧
   get_scale_loop k v = scales_at (idx scale_nano_idx)).
Proof.
  induction k as [|k IH]; cbn [get_scale_loop].
  - right. split; [intros j Hj; lia|reflexivity].
  - fold (scale_fits v (scales_at k)).
    destruct (scale_fits v (scales_at k)) eqn:Hk.
    + left. exists k. split; [lia|]. split; [exact Hk|]. split; [intros j Hj; lia|reflexivity].
    + destruct IH as [(i & Hi & Hfit & Habove & Hres)|[Hnone Hres]].
      * left. exists i. split; [lia|]. split; [exact Hfit|]. split; [|exact Hres].
        intros j Hj. destruct (decide (j = k)) as [->|Hne]; [exact Hk|apply Habove; lia].
      * right. split; [|exact Hres].
        intros j Hj. destruct (decide (j = k)) as [->|Hne]; [exact Hk|apply Hnone; lia].
Qed.

Lemma scales_elem s :
  s ∈ scales ↔ ∃ i, (i < scale_count)%nat ∧ s = scales_at i.
Proof.
  rewrite list_elem_of_lookup. split.
  - intros [i Hi]. exists i. split.
    + apply lookup_lt_Some in Hi. exact Hi.
    + unfold scales_at. rewrite nth_lookup, Hi. reflexivity.
  - intros (i & Hi & ->). exists i. unfold scales_at. rewrite nth_lookup.
    destruct (lookup_lt_is_Some_2 scales i Hi) as [x Hx]. rewrite Hx. reflexivity.
Qed.

(** The table is ordered by divisor: a later entry has a larger one. *)
Lemma scales_increasing i j :
  (i ≤ j < scale_count)%nat →
  PrimFloat.leb (scale_divisor (scales_at i)) (scale_divisor (scales_at j)) = true.
Proof.
  unfold scale_count. intros Hij.
  do 8 (destruct j as [|j]; [do 8 (destruct i as [|i]; [reflexivity || lia|]); lia|]).
  lia.
Qed.

(** C6. For [v == 0], [get_scale] returns the nano entry. Otherwise, if
    some entry of [scales] passes the test [fabs(v / divisor) >= 1.0],
    the result is an entry that passes it and whose divisor is the
    largest among those that pass; if none passes, the result is the nano
    entry. In particular 0.0 and 0.000000123 give nano, 1500.0 gives
    kilo and 1.5e12 gives tera. *)
Theorem get_scale_largest_fitting :
  (∀ v, PrimFloat.eqb v 0 = true → get_scale v = scales_at (idx scale_nano_idx)) ∧
  (∀ v s, PrimFloat.eqb v 0 = false → s ∈ scales → scale_fits v s = true →
     get_scale v ∈ scales ∧
     scale_fits v (get_scale v) = true ∧
     ∀ s', s' ∈ scales → scale_fits v s' = true →
           PrimFloat.leb (scale_divisor s') (scale_divisor (get_scale v)) = true) ∧
  (∀ v, (∀ s, s ∈ scales → scale_fits v s = false) →
     get_scale v = scales_at (idx scale_nano_idx)) ∧
  get_scale 0 = scales_at (idx scale_nano_idx) ∧
  get_scale 0.000000123 = scales_at (idx scale_nano_idx) ∧
  get_scale 1500 = scales_at (idx scale_kilo_idx) ∧
  get_scale 1.5e12 = scales_at (idx scale_tera_idx).
Proof.
  split; [|split; [|split]].
  - intros v Hv. unfold get_scale. rewrite Hv. reflexivity.
  - intros v s Hv Hs Hfit. unfold get_scale. rewrite Hv.
    apply scales_elem in Hs as (i0 & Hi0 & ->).
    destruct (get_scale_loop_spec v scale_count)
      as [(i & Hi & Hfi & Habove & ->)|[Hnone _]].
    + split; [apply scales_elem; exists i; auto|]. split; [exact Hfi|].
      intros s' Hs' Hfit'. apply scales_elem in Hs' as (j & Hj & ->).
      apply scales_increasing. split; [|exact Hi].
      destruct (decide (j ≤ i)%nat) as [Hle|Hgt]; [exact Hle|].
      rewrite Habove in Hfit' by lia. discriminate.
    + rewrite Hnone in Hfit by exact Hi0. discriminate.
  - intros v Hnone. unfold get_scale.
    destruct (PrimFloat.eqb v 0); [reflexivity|].
    destruct (get_scale_loop_spec v scale_count)
      as [(i & Hi & Hfi & _ & _)|[_ Hres]]; [|exact Hres].
    rewrite Hnone in Hfi by (apply scales_elem; exists i; auto). discriminate.
  - repeat split; vm_compute; reflexivity.
Qed.

Lemma get_scale_largest_fitting_witness :
  PrimFloat.eqb 1500 0 = false ∧
  scales_at (idx scale_unit_idx) ∈ scales ∧
  scale_fits 1500 (scales_at (idx scale_unit_idx)) = true ∧
  scale_fits 1500 (get_scale 1500) = true ∧
  PrimFloat.leb (scale_divisor (scales_at (idx scale_unit_idx)))
                (scale_divisor (get_scale 1500)) = true ∧
  PrimFloat.eqb 0 0 = true ∧
  get_scale 0 = scales_at (idx scale_nano_idx).
Proof.
  assert (Hin : scales_at (idx scale_unit_idx) ∈ scales).
  { apply list_elem_of_lookup. exists 3%nat. reflexivity. }
  destruct get_scale_largest_fitting as (Hzero & Hfit & _).
  destruct (Hfit 1500%float (scales_at (idx scale_unit_idx)) eq_refl Hin eq_refl)
    as (_ & Hres & Hmax).
  split; [reflexivity|]. split; [exact Hin|]. split; [reflexivity|].
  split; [exact Hres|]. split; [exact (Hmax _ Hin eq_refl)|].
  split; [reflexivity|]. exact (Hzero 0%float eq_refl).
Defined.

(** ** [FFT_bench] *)

Section Throughput.
Context `{Libc}.

(** C7. For [mu_s <= 0] [FFT_bench] prints nothing. Otherwise the
    throughput it prints, scaled and raw, is
    [5 * N * log2(N) / (mu_s * 1e-6)], the operation count divided by the
    duration in seconds. For 2341 µs and 1024 points (where
    [log2(1024)] is 10) that is 51200 / (2341 * 1e-6) FLOP/s, printed as
    21.871 MFLOP/s, the value of [5*1024*log2(1024)/2341e-6/1e6]. *)
Theorem FFT_bench_throughput :
  (∀ mu_s n, PrimFloat.leb mu_s 0 = true → FFT_bench mu_s n = EmptyString) ∧
  (∀ mu_s n, PrimFloat.leb mu_s 0 = false →
     FFT_bench mu_s n =
       fft_report mu_s
         (PrimFloat.div
            (PrimFloat.mul (PrimFloat.mul 5 (double_of_Z n)) (log2 (double_of_Z n)))
            (PrimFloat.mul mu_s 1e-6))) ∧
  (log2 1024 = 10%float →
     FFT_bench 2341 1024
       = fft_report 2341 (PrimFloat.div 51200 (PrimFloat.mul 2341 1e-6)) ∧
     format_scaled (PrimFloat.div 51200 (PrimFloat.mul 2341 1e-6)) STRING_LENGTH "FLOP/s"
       = " 21.871 MFLOP/s"%string ∧
     conv_f 3 (PrimFloat.div 51200 (PrimFloat.mul 2341 1e-6))
       = "21870995.301"%string ∧
     conv_wf 7 3
       (PrimFloat.div
          (PrimFloat.div (PrimFloat.mul (PrimFloat.mul 5 1024) 10) 2341e-6) 1e6)
       = " 21.871"%string ∧
     PrimFloat.leb
       (PrimFloat.abs
          (PrimFloat.sub
             (PrimFloat.div (PrimFloat.div 51200 (PrimFloat.mul 2341 1e-6)) 1e6)
             (PrimFloat.div
                (PrimFloat.div (PrimFloat.mul (PrimFloat.mul 5 1024) 10) 2341e-6) 1e6)))
       1e-13 = true).
Proof.
  split; [|split].
  - intros mu_s n Hle. unfold FFT_bench. rewrite Hle. reflexivity.
  - intros mu_s n Hle. unfold FFT_bench. rewrite Hle. reflexivity.
  - intros Hlog. split.
    + unfold FFT_bench.
      replace (PrimFloat.leb 2341 0) with false by reflexivity.
      unfold fft_flops.
      replace (double_of_Z 1024) with 1024%float by reflexivity.
      rewrite Hlog. reflexivity.
    + repeat split; vm_compute; reflexivity.
Qed.
End Throughput.

Lemma FFT_bench_throughput_witness :
  @log2 model_libc 1024 = 10%float ∧
  PrimFloat.leb (-1) 0 = true ∧
  @FFT_bench model_libc (-1) 1024 = EmptyString ∧
  PrimFloat.leb 2341 0 = false ∧
  @FFT_bench model_libc 2341 1024
    = @fft_report model_libc 2341 (PrimFloat.div 51200 (PrimFloat.mul 2341 1e-6)).
Proof.
  destruct (@FFT_bench_throughput model_libc) as (Hskip & _ & Hexample).
  split; [reflexivity|]. split; [reflexivity|].
  split; [exact (Hskip (-1)%float 1024 eq_refl)|].
  split; [reflexivity|].
  exact (proj1 (Hexample eq_refl)).
Defined.

(** ** [print_bench_json] *)

Lemma append_assoc s1 s2 s3 : (s1 +++ s2) +++ s3 = s1 +++ s2 +++ s3.
Proof. induction s1 as [|c s1 IH]; cbn; [reflexivity|]. rewrite IH. reflexivity. Qed.

Lemma stored_lookup b i t :
  stored b !! i = Some t → timings_at b i = t.
Proof.
  unfold stored. intros Hi. apply timings_at_lookup.
  apply lookup_take_Some in Hi. apply Hi.
Qed.

Lemma stored_length b :
  wf_benchmark b → length (stored b) = timing_index b.
Proof. intros (Hlen & _ & Hidx). unfold stored. rewrite length_take. lia. Qed.

Lemma wf_zero_store : wf_benchmark zero_store.
Proof.
  unfold zero_store, END_TIMING.
  apply wf_record_timing, wf_START_TIMING, wf_benchmark_init, wf_static_benchmarks.
Qed.

Section Json.
Context `{Libc}.

Lemma json_line_entry b i :
  json_line b i =
    "  " +++ json_entry (total_time b) (timings_at b i) +++
    (if Z.of_nat i <? wrap_size_t (Z.of_nat (timing_index b) - 1)
     then ","%string else EmptyString) +++ nl.
Proof.
  unfold json_line, json_entry, percentage_of.
  rewrite !append_assoc. reflexivity.
Qed.

Lemma json_loop b : ∀ entries k,
  (∀ i t, entries !! i = Some t → timings_at b (k + i) = t) →
  (k + length entries)%nat = timing_index b →
  (timing_index b ≤ MAX_FUNS_TO_BENCH)%nat →
  foldr (λ i acc, json_line b i +++ acc) EmptyString (seq k (length entries))
    = json_lines (total_time b) entries.
Proof.
  induction entries as [|t rest IH]; intros k Hat Hlen Hcap; [reflexivity|].
  cbn [length seq foldr json_lines].
  rewrite (IH (S k)).
  - rewrite json_line_entry.
    rewrite <- (Hat 0%nat t eq_refl), Nat.add_0_r.
    assert (Hw : wrap_size_t (Z.of_nat (timing_index b) - 1)
                 = Z.of_nat (timing_index b) - 1).
    { unfold wrap_size_t. apply Z.mod_small.
      cbn [length] in Hlen. unfold MAX_FUNS_TO_BENCH in Hcap. lia. }
    rewrite Hw. rewrite !append_assoc.
    destruct rest as [|t' rest'].
    + cbn [length] in Hlen.
      replace (Z.of_nat k <? Z.of_nat (timing_index b) - 1) with false
        by (symmetry; apply Z.ltb_ge; lia).
      reflexivity.
    + cbn [length] in Hlen.
      replace (Z.of_nat k <? Z.of_nat (timing_index b) - 1) with true
        by (symmetry; apply Z.ltb_lt; lia).
      reflexivity.
  - intros i t' Hi. rewrite <- (Hat (S i) t' Hi). f_equal. lia.
  - cbn [length] in Hlen. lia.
  - exact Hcap.
Qed.

(** C3, as the code has it. [print_bench_json] writes the opening
    sentinel, then one line per stored entry in storage order, each made
    of two spaces, the quoted label, the key ["time_μs"] (with the Greek
    letter mu) and the duration as an integer, the key ["percentage"] and
    [time_us * 100.0 / total_time] under [%.2f], a comma except on the
    last line, then the closing sentinel. *)
Theorem print_bench_json_lines b :
  wf_benchmark b →
  print_bench_json b
    = ">>>{" +++ nl +++ json_lines (total_time b) (take (timing_index b) (timings b))
      +++ "}<<<" +++ nl.
Proof.
  intros Hwf. unfold print_bench_json, for_each.
  pose proof (stored_length b Hwf) as Hlen. pose proof Hwf as (_ & _ & Hcap).
  fold (stored b). rewrite <- Hlen at 1.
  rewrite (json_loop b (stored b) 0%nat).
  - reflexivity.
  - intros i t Hi. apply stored_lookup. exact Hi.
  - exact Hlen.
  - exact Hcap.
Qed.

(** C1, as the code has it. [print_bench_json] has no guard on the
    total: with [total_time] zero each percentage is the quotient of
    [time_us * 100.0] by 0.0, which for an entry of duration 0 is a NaN and
    is printed as [printf] prints a NaN. With no entry recorded the output
    is the two sentinels around an empty body and no percentage is
    computed. *)
Theorem print_bench_json_zero_total :
  (∀ b i, total_time b = 0 →
     percentage_of b i
       = PrimFloat.div (PrimFloat.mul (double_of_Z (time_us (timings_at b i))) 100) 0) ∧
  (∀ b i, total_time b = 0 → time_us (timings_at b i) = 0 →
     Prim2SF (percentage_of b i) = S754_nan ∧
     PrimFloat.eqb (percentage_of b i) 0 = false ∧
     conv_f 2 (percentage_of b i) = printf_nan) ∧
  (∀ b, timing_index b = 0%nat →
     print_bench_json b = ">>>{" +++ nl +++ "}<<<" +++ nl ∧
     json_percentages b = []).
Proof.
  split; [|split].
  - intros b i Htotal. unfold percentage_of. rewrite Htotal. reflexivity.
  - intros b i Htotal Htime. unfold percentage_of. rewrite Htotal, Htime.
    repeat split; reflexivity.
  - intros b Hn. unfold print_bench_json, json_percentages. rewrite Hn.
    split; reflexivity.
Qed.
End Json.

Lemma print_bench_json_lines_witness :
  wf_benchmark abc_store ∧
  @print_bench_json model_libc abc_store
    = ">>>{" +++ nl +++
      "  " +++ dq +++ "a" +++ dq +++ ": {" +++ dq +++ "time_μs" +++ dq +++ ": 1000, " +++
        dq +++ "percentage" +++ dq +++ ": 16.67}," +++ nl +++
      "  " +++ dq +++ "b" +++ dq +++ ": {" +++ dq +++ "time_μs" +++ dq +++ ": 3000, " +++
        dq +++ "percentage" +++ dq +++ ": 50.00}," +++ nl +++
      "  " +++ dq +++ "c" +++ dq +++ ": {" +++ dq +++ "time_μs" +++ dq +++ ": 2000, " +++
        dq +++ "percentage" +++ dq +++ ": 33.33}" +++ nl +++
      "}<<<" +++ nl.
Proof.
  split; [exact wf_abc_store|].
  etrans; [exact (@print_bench_json_lines model_libc abc_store wf_abc_store)|].
  vm_compute. reflexivity.
Defined.

(** The lines of the store {a:1000, b:3000, c:2000} carry the key
    ["time_μs"]: the text ["time_us"] (with its quotes) occurs nowhere in
    the output, so no line has the shape
    ["label": {"time_us": N, "percentage": P.PP}]. *)
Lemma print_bench_json_key_is_not_time_us :
  timing_index abc_store = 3%nat ∧
  String.index 0 (dq +++ "time_us" +++ dq) (@print_bench_json model_libc abc_store)
    = None ∧
  String.index 0 (dq +++ "time_μs" +++ dq) (@print_bench_json model_libc abc_store)
    = Some 13%nat.
Proof. repeat split; vm_compute; reflexivity. Qed.

Lemma print_bench_json_zero_total_witness :
  total_time zero_store = 0 ∧
  time_us (timings_at zero_store 0) = 0 ∧
  timing_index (benchmark_init static_benchmarks) = 0%nat ∧
  Prim2SF (percentage_of zero_store 0) = S754_nan ∧
  @print_bench_json model_libc (benchmark_init static_benchmarks)
    = ">>>{" +++ nl +++ "}<<<" +++ nl.
Proof.
  destruct (@print_bench_json_zero_total model_libc) as (_ & Hnan & Hempty).
  split; [reflexivity|]. split; [reflexivity|]. split; [reflexivity|].
  split.
  - exact (proj1 (Hnan zero_store 0%nat eq_refl eq_refl)).
  - exact (proj1 (Hempty (benchmark_init static_benchmarks) eq_refl)).
Defined.

(** With one entry of duration 0 the total is 0 and the percentage is not
    taken as 0: it is a NaN, and the line shows it. *)
Lemma print_bench_json_divides_by_zero_total :
  ¬ (∀ b i, wf_benchmark b → total_time b = 0 → (i < timing_index b)%nat →
            PrimFloat.eqb (percentage_of b i) 0 = true) ∧
  @print_bench_json model_libc zero_store
    = ">>>{" +++ nl +++
      "  " +++ dq +++ "z" +++ dq +++ ": {" +++ dq +++ "time_μs" +++ dq +++ ": 0, " +++
        dq +++ "percentage" +++ dq +++ ": -nan}" +++ nl +++
      "}<<<" +++ nl.
Proof.
  split; [|vm_compute; reflexivity].
  intros Hguard.
  specialize (Hguard zero_store 0%nat wf_zero_store eq_refl ltac:(vm_compute; lia)).
  vm_compute in Hguard. discriminate.
Qed.

(** ** [compare_times] and the order [qsort] produces *)

Lemma compare_times_le a b : compare_times a b ≤ 0 ↔ time_us b ≤ time_us a.
Proof.
  unfold compare_times.
  destruct (Z.ltb_spec (time_us a) (time_us b)); [lia|].
  destruct (Z.ltb_spec (time_us b) (time_us a)); lia.
Qed.

Lemma compare_times_consistent : consistent_cmp compare_times.
Proof.
  split.
  - intros a b. unfold compare_times.
    destruct (Z.ltb_spec (time_us a) (time_us b)), (Z.ltb_spec (time_us b) (time_us a));
      cbn; lia.
  - intros a b c. rewrite !compare_times_le. lia.
Qed.

#[local] Instance descending_transitive : Transitive descending.
Proof. intros a b c. unfold descending. rewrite !compare_times_le. lia. Qed.

Lemma same_time_same_entry (l : list time_info) x y :
  NoDup (time_us <$> l) → x ∈ l → y ∈ l → time_us x = time_us y → x = y.
Proof.
  intros Hnd Hx Hy Hxy.
  apply list_elem_of_lookup in Hx as [i Hi]. apply list_elem_of_lookup in Hy as [j Hj].
  assert (Hij : i = j).
  { apply (NoDup_lookup _ i j (time_us x) Hnd).
    - rewrite list_lookup_fmap, Hi. reflexivity.
    - rewrite list_lookup_fmap, Hj, Hxy. reflexivity. }
  subst j. congruence.
Qed.

(** With pairwise distinct durations there is one descending arrangement. *)
Lemma descending_unique l1 l2 :
  StronglySorted descending l1 → StronglySorted descending l2 →
  l1 ≡ₚ l2 → NoDup (time_us <$> l1) → l1 = l2.
Proof.
  intros Hs1 Hs2 Hperm Hnd.
  apply (Sorted_unique_strong descending);
    [|apply StronglySorted_Sorted, Hs1|apply StronglySorted_Sorted, Hs2|exact Hperm].
  intros x1 x2 Hx1 Hx2 H12 H21. unfold descending in H12, H21.
  rewrite compare_times_le in H12, H21.
  apply (same_time_same_entry l1); [exact Hnd|exact Hx1|rewrite Hperm; exact Hx2|lia].
Qed.

(** In general two descending arrangements show the same durations. *)
Lemma descending_same_durations l1 l2 :
  StronglySorted descending l1 → StronglySorted descending l2 →
  l1 ≡ₚ l2 → time_us <$> l1 = time_us <$> l2.
Proof.
  intros Hs1 Hs2 Hperm.
  assert (Hanti : AntiSymm eq (λ x y : Z, y ≤ x)) by (intros x y ? ?; lia).
  apply (StronglySorted_unique (λ x y : Z, y ≤ x)).
  - apply (StronglySorted_fmap time_us descending); [|exact Hs1].
    intros x y. unfold descending. rewrite compare_times_le. auto.
  - apply (StronglySorted_fmap time_us descending); [|exact Hs2].
    intros x y. unfold descending. rewrite compare_times_le. auto.
  - rewrite Hperm. reflexivity.
Qed.

Section Sorting.
Context `{Libc}.

Lemma qsort_descending l : StronglySorted descending (qsort compare_times l).
Proof. apply qsort_sorted, compare_times_consistent. Qed.

Lemma qsort_fixed_point l :
  NoDup (time_us <$> l) → StronglySorted descending l → qsort compare_times l = l.
Proof.
  intros Hnd Hs. apply descending_unique; [apply qsort_descending|exact Hs| |].
  - apply qsort_permutation.
  - rewrite qsort_permutation. exact Hnd.
Qed.

Lemma qsort_same_durations l :
  StronglySorted descending l → time_us <$> qsort compare_times l = time_us <$> l.
Proof.
  intros Hs. apply descending_same_durations;
    [apply qsort_descending|exact Hs|apply qsort_permutation].
Qed.

Lemma stored_ranked_sort_twice b :
  wf_benchmark b →
  stored (ranked_sort (ranked_sort b))
    = qsort compare_times (qsort compare_times (stored b)).
Proof.
  intros Hwf. pose proof (wf_ranked_sort b Hwf) as Hwf1.
  rewrite stored_ranked_sort by exact Hwf1.
  rewrite stored_ranked_sort by exact Hwf. reflexivity.
Qed.

(** Sorting a store whose durations are pairwise distinct a second time
    changes nothing. *)
Lemma ranked_sort_idempotent b :
  wf_benchmark b → NoDup (time_us <$> stored b) →
  ranked_sort (ranked_sort b) = ranked_sort b.
Proof.
  intros Hwf Hnd. pose proof Hwf as (Hlen & _ & Hidx).
  assert (Ht : length (qsort compare_times (take (timing_index b) (timings b)))
               = timing_index b).
  { rewrite (Permutation_length (qsort_permutation _ _)), length_take. lia. }
  unfold ranked_sort at 1. cbn [total_time start_time timing_index].
  unfold ranked_sort. cbn [timings timing_index]. f_equal.
  rewrite take_app_length' by (symmetry; exact Ht).
  rewrite drop_app_length' by (symmetry; exact Ht).
  f_equal. apply qsort_fixed_point; [|apply qsort_descending].
  rewrite qsort_permutation. exact Hnd.
Qed.
End Sorting.

(** ** [print_bench_ranked] called twice *)

Lemma for_each_opt_defined (body : nat → option string) n : ∀ k,
  is_Some (foldr (λ i acc, r ← body i; rest ← acc; Some (r +++ rest))
                 (Some EmptyString) (seq k n))
  ↔ ∀ i, (k ≤ i < k + n)%nat → is_Some (body i).
Proof.
  induction n as [|n IH]; intros k; cbn [seq foldr].
  - split; [intros _ i Hi; lia|intros _; eexists; reflexivity].
  - specialize (IH (S k)). split.
    + intros Hsome i Hi.
      destruct (body k) as [r|] eqn:Hk; cbn in Hsome; [|destruct Hsome; discriminate].
      destruct (foldr _ _ (seq (S k) n)) as [rest|] eqn:Hrest; cbn in Hsome;
        [|destruct Hsome; discriminate].
      destruct (decide (i = k)) as [->|Hne]; [rewrite Hk; eexists; reflexivity|].
      apply (proj1 IH); [eexists; reflexivity|lia].
    + intros Hall.
      destruct (Hall k ltac:(lia)) as [r Hr]. rewrite Hr. cbn.
      destruct (proj2 IH) as [rest Hrest]; [intros i Hi; apply Hall; lia|].
      rewrite Hrest. cbn. eexists; reflexivity.
Qed.

Section RankedTwice.
Context `{Libc}.

(** Whether the conversions of one row are defined depends on the
    percentage alone. *)
Lemma ranked_row_defined b max_time i :
  is_Some (ranked_row b max_time i)
  ↔ is_Some (filled_length_of (percentage_of b i) ≫= empty_length_of).
Proof.
  unfold ranked_row.
  destruct (filled_length_of (percentage_of b i)) as [f|]; cbn;
    [|split; intros [x Hx]; discriminate].
  destruct (empty_length_of f) as [e|]; cbn;
    [|split; intros [x Hx]; discriminate].
  split; intros _; eexists; reflexivity.
Qed.

Lemma percentage_of_same_times b b' i :
  total_time b' = total_time b →
  time_us (timings_at b' i) = time_us (timings_at b i) →
  percentage_of b' i = percentage_of b i.
Proof. intros Htot Htime. unfold percentage_of. rewrite Htot, Htime. reflexivity. Qed.

Lemma stored_time_at b b' i :
  wf_benchmark b → wf_benchmark b' →
  timing_index b' = timing_index b →
  time_us <$> stored b' = time_us <$> stored b →
  (i < timing_index b)%nat →
  time_us (timings_at b' i) = time_us (timings_at b i).
Proof.
  intros Hwf Hwf' Hidx Htimes Hi.
  destruct (lookup_lt_is_Some_2 (stored b) i) as [t Ht];
    [rewrite stored_length by exact Hwf; exact Hi|].
  destruct (lookup_lt_is_Some_2 (stored b') i) as [t' Ht'];
    [rewrite stored_length by exact Hwf'; lia|].
  rewrite (stored_lookup _ _ _ Ht), (stored_lookup _ _ _ Ht').
  assert (Heq : (time_us <$> stored b') !! i = (time_us <$> stored b) !! i)
    by (rewrite Htimes; reflexivity).
  rewrite !list_lookup_fmap, Ht, Ht' in Heq. cbn in Heq. congruence.
Qed.

Lemma print_bench_ranked_rows b :
  timing_index b ≠ 0%nat →
  print_bench_ranked b =
    (rows ← for_each_opt (timing_index b)
              (ranked_row (ranked_sort b) (time_us (timings_at (ranked_sort b) 0)));
     Some (ranked_sort b, ranked_header +++ rows +++ ranked_footer)).
Proof.
  intros Hn. unfold print_bench_ranked.
  rewrite bool_decide_eq_false_2 by exact Hn. reflexivity.
Qed.

(** C8, as the code has it. After a first [print_bench_ranked], a
    second one prints the same text and leaves the same store whenever
    the stored durations are pairwise distinct. In every case the second
    call is defined when the first was, and shows the same durations in
    the same order; entries of equal duration are placed as [qsort]
    pleases, which the C library leaves open. *)
Theorem print_bench_ranked_twice b b1 o1 :
  wf_benchmark b →
  print_bench_ranked b = Some (b1, o1) →
  (NoDup (time_us <$> take (timing_index b) (timings b)) →
   print_bench_ranked b1 = Some (b1, o1)) ∧
  (∃ b2 o2,
     print_bench_ranked b1 = Some (b2, o2) ∧
     timing_index b2 = timing_index b1 ∧
     total_time b2 = total_time b1 ∧
     take (timing_index b2) (timings b2) ≡ₚ take (timing_index b1) (timings b1) ∧
     time_us <$> take (timing_index b2) (timings b2)
       = time_us <$> take (timing_index b1) (timings b1)).
Proof.
  intros Hwf Hfirst.
  destruct (print_bench_ranked_store _ _ _ Hfirst) as [[Hz ->]|[Hn ->]].
  { (* no entry: the notice, twice *)
    split; [intros _; exact Hfirst|].
    exists b, o1. split; [exact Hfirst|]. auto. }
  pose proof (wf_ranked_sort b Hwf) as Hwf1.
  pose proof (wf_ranked_sort _ Hwf1) as Hwf2.
  rewrite print_bench_ranked_rows in Hfirst by exact Hn.
  destruct (for_each_opt _ _) as [rows|] eqn:Hrows; cbn in Hfirst; [|discriminate].
  injection Hfirst as <-.
  assert (Hn1 : timing_index (ranked_sort b) ≠ 0%nat) by exact Hn.
  split.
  - intros Hnd. fold (stored b) in Hnd.
    rewrite print_bench_ranked_rows by exact Hn1.
    rewrite ranked_sort_idempotent by assumption.
    cbn [ranked_sort timing_index] in *. rewrite Hrows. reflexivity.
  - assert (Htimes : time_us <$> stored (ranked_sort (ranked_sort b))
                     = time_us <$> stored (ranked_sort b)).
    { rewrite stored_ranked_sort_twice, stored_ranked_sort by exact Hwf.
      apply qsort_same_durations, qsort_descending. }
    assert (Hdef : is_Some (for_each_opt (timing_index (ranked_sort b))
                     (ranked_row (ranked_sort (ranked_sort b))
                        (time_us (timings_at (ranked_sort (ranked_sort b)) 0))))).
    { unfold for_each_opt. apply for_each_opt_defined. intros i Hi.
      apply ranked_row_defined.
      rewrite (percentage_of_same_times (ranked_sort b) (ranked_sort (ranked_sort b)) i);
        [|reflexivity|apply stored_time_at; auto; cbn in *; lia].
      apply ranked_row_defined with (max_time := time_us (timings_at (ranked_sort b) 0)).
      assert (Hall : is_Some (for_each_opt (timing_index b)
                (ranked_row (ranked_sort b) (time_us (timings_at (ranked_sort b) 0)))))
        by (rewrite Hrows; eexists; reflexivity).
      unfold for_each_opt in Hall.
      apply (proj1 (for_each_opt_defined _ _ 0%nat) Hall). cbn in *. lia. }
    destruct Hdef as [rows2 Hrows2].
    exists (ranked_sort (ranked_sort b)), (ranked_header +++ rows2 +++ ranked_footer).
    split; [rewrite print_bench_ranked_rows by exact Hn1; rewrite Hrows2; reflexivity|].
    split; [reflexivity|]. split; [reflexivity|].
    fold (stored (ranked_sort (ranked_sort b))). fold (stored (ranked_sort b)).
    split; [|exact Htimes].
    rewrite stored_ranked_sort_twice by exact Hwf.
    rewrite stored_ranked_sort by exact Hwf.
    apply qsort_permutation.
Qed.
End RankedTwice.

(** ** The ranked chart of the store {a:1000, b:3000, c:2000} *)

Lemma abc_store_distinct : NoDup (time_us <$> stored abc_store).
Proof.
  replace (time_us <$> stored abc_store) with [1000; 3000; 2000]
    by (vm_compute; reflexivity).
  repeat (apply NoDup_cons; split;
          [rewrite ?elem_of_cons, ?elem_of_nil; lia|]).
  apply NoDup_nil. exact I.
Qed.

Lemma ranked_sort_determined (L1 L2 : Libc) b :
  NoDup (time_us <$> stored b) → @ranked_sort L1 b = @ranked_sort L2 b.
Proof.
  intros Hnd. unfold ranked_sort. f_equal. f_equal. fold (stored b).
  apply descending_unique.
  - apply (@qsort_descending L1).
  - apply (@qsort_descending L2).
  - rewrite !qsort_permutation. reflexivity.
  - rewrite qsort_permutation. exact Hnd.
Qed.

Section RankedExample.
Context `{Libc}.

(** C2, as the code has it. Whatever [qsort] the C library provides,
    [print_bench_ranked] on {a:1000, b:3000, c:2000} prints the rows of b,
    c, a in that order, with 50.0000%, 33.3333% and 16.6667% (the three
    [double]s add up to 100 within 1e-13). The bar of a row is filled in
    proportion to its share of the total, not of the maximum: b, with
    half of the total, gets 10 of the [BAR_LENGTH = 20] positions, c gets
    6 and a gets 3. *)
Theorem print_bench_ranked_abc :
  ∃ b',
    print_bench_ranked abc_store = Some (b', abc_ranked_output) ∧
    labels (take (timing_index b') (timings b')) = ["b"; "c"; "a"]%string ∧
    time_us <$> take (timing_index b') (timings b') = [3000; 2000; 1000] ∧
    percentage_of b' 0 = 50%float ∧
    PrimFloat.leb
      (PrimFloat.abs
         (PrimFloat.sub
            (PrimFloat.add (PrimFloat.add (percentage_of b' 0) (percentage_of b' 1))
                           (percentage_of b' 2))
            100))
      1e-13 = true ∧
    filled_length_of (percentage_of b' 0) = Some 10 ∧
    filled_length_of (percentage_of b' 1) = Some 6 ∧
    filled_length_of (percentage_of b' 2) = Some 3 ∧
    2 * 10 = BAR_LENGTH.
Proof.
  exists (@ranked_sort model_libc abc_store).
  split.
  - rewrite print_bench_ranked_rows by (vm_compute; discriminate).
    rewrite (ranked_sort_determined _ model_libc abc_store abc_store_distinct).
    vm_compute. reflexivity.
  - repeat split; vm_compute; reflexivity.
Qed.
End RankedExample.

(** On {a:1000, b:3000, c:2000} the bar of b, the largest entry, has 10
    of its 20 positions filled: no row of the chart shows [BAR_LENGTH]
    filled positions. *)
Lemma maximal_entry_bar_is_not_full :
  labels (stored (@ranked_sort model_libc abc_store)) = ["b"; "c"; "a"]%string ∧
  filled_length_of (percentage_of (@ranked_sort model_libc abc_store) 0) = Some 10 ∧
  10 ≠ BAR_LENGTH ∧
  @print_bench_ranked model_libc abc_store
    = Some (@ranked_sort model_libc abc_store, abc_ranked_output) ∧
  String.index 0 (rep 11 "▰") abc_ranked_output = None.
Proof.
  split; [vm_compute; reflexivity|].
  split; [vm_compute; reflexivity|].
  split; [unfold BAR_LENGTH; lia|].
  split; vm_compute; reflexivity.
Qed.

Lemma print_bench_ranked_abc_witness :
  ∃ b', @print_bench_ranked model_libc abc_store = Some (b', abc_ranked_output) ∧
        labels (take (timing_index b') (timings b')) = ["b"; "c"; "a"]%string.
Proof.
  destruct (@print_bench_ranked_abc model_libc) as (b' & Hout & Hlabels & _).
  exists b'. split; [exact Hout|exact Hlabels].
Defined.

(** ** Equal durations: the order depends on [qsort] *)

(** With a [qsort] that is not stable, two calls in a row on a store with
    two entries of equal duration print the rows in the two different
    orders. *)
Lemma ties_reorder_between_two_rankings :
  time_us <$> stored tie_store = [1000; 1000] ∧
  @print_bench_ranked backward_libc tie_store
    = Some (@ranked_sort backward_libc tie_store, tie_output "y" "x") ∧
  @print_bench_ranked backward_libc (@ranked_sort backward_libc tie_store)
    = Some (@ranked_sort backward_libc (@ranked_sort backward_libc tie_store),
            tie_output "x" "y") ∧
  tie_output "y" "x" ≠ tie_output "x" "y".
Proof.
  split; [vm_compute; reflexivity|].
  split; [vm_compute; reflexivity|].
  split; [vm_compute; reflexivity|].
  intros Heq. apply (f_equal (String.eqb (tie_output "y" "x"))) in Heq.
  vm_compute in Heq. discriminate.
Qed.

Lemma print_bench_ranked_twice_witness :
  wf_benchmark abc_store ∧
  @print_bench_ranked model_libc abc_store
    = Some (@ranked_sort model_libc abc_store, abc_ranked_output) ∧
  NoDup (time_us <$> take (timing_index abc_store) (timings abc_store)) ∧
  @print_bench_ranked model_libc (@ranked_sort model_libc abc_store)
    = Some (@ranked_sort model_libc abc_store, abc_ranked_output).
Proof.
  assert (Hfirst : @print_bench_ranked model_libc abc_store
                   = Some (@ranked_sort model_libc abc_store, abc_ranked_output))
    by (vm_compute; reflexivity).
  split; [exact wf_abc_store|]. split; [exact Hfirst|].
  split; [exact abc_store_distinct|].
  exact (proj1 (@print_bench_ranked_twice model_libc abc_store _ _ wf_abc_store Hfirst)
           abc_store_distinct).
Defined.

(** * Further properties of the header *)

(** ** [compare_times] *)

(** X1. [compare_times] looks at the durations only and orders them
    descending: the result is -1, 0 or 1; it is negative exactly when the
    first entry took longer, zero exactly when both took the same time;
    swapping the arguments negates it; "not after" is transitive. *)
Theorem compare_times_is_descending_order :
  (∀ a b, compare_times a b = -1 ∨ compare_times a b = 0 ∨ compare_times a b = 1) ∧
  (∀ a b, compare_times a b < 0 ↔ time_us b < time_us a) ∧
  (∀ a b, compare_times a b = 0 ↔ time_us a = time_us b) ∧
  (∀ a b, compare_times a b = - compare_times b a) ∧
  (∀ a b c, compare_times a b ≤ 0 → compare_times b c ≤ 0 → compare_times a c ≤ 0) ∧
  (∀ a b a' b', time_us a = time_us a' → time_us b = time_us b' →
     compare_times a b = compare_times a' b').
Proof.
  assert (Hcases : ∀ a b,
            (time_us a < time_us b ∧ compare_times a b = 1) ∨
            (time_us b < time_us a ∧ compare_times a b = -1) ∨
            (time_us a = time_us b ∧ compare_times a b = 0)).
  { intros a b. unfold compare_times.
    destruct (Z.ltb_spec (time_us a) (time_us b)); [left; lia|].
    destruct (Z.ltb_spec (time_us b) (time_us a)); [right; left; lia|right; right; lia]. }
  split; [|split; [|split; [|split; [|split]]]].
  - intros a b. destruct (Hcases a b) as [[_ ->]|[[_ ->]|[_ ->]]]; auto.
  - intros a b. destruct (Hcases a b) as [[? ->]|[[? ->]|[? ->]]]; lia.
  - intros a b. destruct (Hcases a b) as [[? ->]|[[? ->]|[? ->]]]; lia.
  - intros a b.
    destruct (Hcases a b) as [[? ->]|[[? ->]|[? ->]]],
             (Hcases b a) as [[? ->]|[[? ->]|[? ->]]]; lia.
  - intros a b c Hab Hbc.
    destruct (Hcases a b) as [[? Ha]|[[? Ha]|[? Ha]]],
             (Hcases b c) as [[? Hb]|[[? Hb]|[? Hb]]],
             (Hcases a c) as [[? ->]|[[? ->]|[? ->]]]; lia.
  - intros a b a' b' Ha Hb. unfold compare_times. rewrite Ha, Hb. reflexivity.
Qed.

Lemma compare_times_is_descending_order_witness :
  time_us zero_time_info = time_us (set_function_name (λ _, []) zero_time_info) ∧
  compare_times (set_time_us 5 zero_time_info) zero_time_info
    = compare_times (set_time_us 5 zero_time_info)
                    (set_function_name (λ _, []) zero_time_info).
Proof.
  split; [reflexivity|].
  destruct compare_times_is_descending_order as (_ & _ & _ & _ & _ & Hkeys).
  apply Hkeys; reflexivity.
Defined.

(** ** [print_bench] *)

Lemma for_each_entries (body : nat → string) (text : time_info → string) :
  ∀ entries k,
    (∀ i t, entries !! i = Some t → body (k + i)%nat = text t) →
    foldr (λ i acc, body i +++ acc) EmptyString (seq k (length entries))
      = foldr (λ t acc, text t +++ acc) EmptyString entries.
Proof.
  induction entries as [|t rest IH]; intros k Hat; [reflexivity|].
  cbn [length seq foldr].
  rewrite (IH (S k)).
  - rewrite <- (Hat 0%nat t eq_refl), Nat.add_0_r. reflexivity.
  - intros i t' Hi. rewrite <- (Hat (S i) t' Hi). f_equal. lia.
Qed.

Lemma print_bench_raw_lines b :
  wf_benchmark b → print_bench b = raw_lines (stored b).
Proof.
  intros Hwf. unfold print_bench, for_each, raw_lines.
  rewrite <- (stored_length b Hwf) at 1.
  apply (for_each_entries _ raw_line (stored b) 0%nat).
  intros i t Hi. cbn [Nat.add]. rewrite (stored_lookup _ _ _ Hi). reflexivity.
Qed.

Lemma raw_lines_app l1 l2 : raw_lines (l1 ++ l2) = raw_lines l1 +++ raw_lines l2.
Proof.
  unfold raw_lines. induction l1 as [|t l1 IH]; cbn; [reflexivity|].
  rewrite IH, append_assoc. reflexivity.
Qed.

Lemma append_empty_r s : s +++ EmptyString = s.
Proof. induction s as [|c s IH]; cbn; [reflexivity|]. rewrite IH. reflexivity. Qed.

(** X2. [print_bench] writes one line [label:duration] per stored entry,
    in storage order and nothing else: no header, no line for a slot at
    or beyond [timing_index], and nothing at all for an empty store. *)
Theorem print_bench_lines b :
  wf_benchmark b →
  print_bench b = raw_lines (take (timing_index b) (timings b)) ∧
  (timing_index b = 0%nat → print_bench b = EmptyString).
Proof.
  intros Hwf. split.
  - apply print_bench_raw_lines, Hwf.
  - intros Hn. rewrite print_bench_raw_lines by exact Hwf.
    unfold stored. rewrite Hn. reflexivity.
Qed.

Lemma print_bench_lines_witness :
  wf_benchmark abc_store ∧
  print_bench abc_store
    = "a:1000" +++ nl +++ "b:3000" +++ nl +++ "c:2000" +++ nl.
Proof.
  split; [exact wf_abc_store|].
  etrans; [exact (proj1 (print_bench_lines abc_store wf_abc_store))|].
  vm_compute. reflexivity.
Defined.

Lemma recorded_entry_buffer now label b :
  wf_benchmark b → (timing_index b < MAX_FUNS_TO_BENCH)%nat →
  function_name (recorded_entry now label b)
    = padded_copy (list_ascii_of_string label) (MAX_FUNS_NAME_LENGTH - 1) ++ [NUL].
Proof.
  intros (Hlen & Hall & _) Hroom. cbn [recorded_entry function_name].
  apply label_stores_result.
  destruct (lookup_lt_is_Some_2 (timings b) (timing_index b)) as [t Ht]; [lia|].
  rewrite (timings_at_lookup _ _ _ Ht).
  exact (proj1 (Forall_lookup _ _) Hall _ _ Ht).
Qed.

Lemma recorded_entry_text now label b :
  wf_benchmark b → (timing_index b < MAX_FUNS_TO_BENCH)%nat →
  NUL ∉ list_ascii_of_string label →
  c_str (function_name (recorded_entry now label b))
    = String.substring 0 (MAX_FUNS_NAME_LENGTH - 1) label.
Proof.
  intros Hwf Hroom Hnot. unfold c_str.
  rewrite recorded_entry_buffer by assumption. unfold padded_copy.
  rewrite <- app_assoc, c_chars_terminated by apply Forall_take, c_chars_no_nul.
  rewrite c_chars_id by exact Hnot. apply string_of_take.
Qed.

(** X3. Recording and then listing: a successful [record_timing] adds
    exactly one line at the end of what [print_bench] prints, the (cut)
    label, a colon and the recorded duration; the lines printed before
    are unchanged. A rejected one leaves the listing as it was. *)
Theorem print_bench_after_record_timing now label b :
  wf_benchmark b → NUL ∉ list_ascii_of_string label →
  ((timing_index b < MAX_FUNS_TO_BENCH)%nat →
   print_bench (fst (record_timing now label b))
     = print_bench b +++
       String.substring 0 (MAX_FUNS_NAME_LENGTH - 1) label +++ ":" +++
       conv_lld (wrap_ll (get_time_us now - start_time b)) +++ nl) ∧
  (timing_index b = MAX_FUNS_TO_BENCH →
   print_bench (fst (record_timing now label b)) = print_bench b).
Proof.
  intros Hwf Hnot. split.
  - intros Hroom.
    rewrite (print_bench_raw_lines _ (wf_record_timing now label b Hwf)).
    rewrite record_timing_stored by assumption.
    rewrite raw_lines_app, <- print_bench_raw_lines by exact Hwf.
    f_equal. cbn [raw_lines foldr]. rewrite append_empty_r. unfold raw_line.
    rewrite recorded_entry_text by assumption. reflexivity.
  - intros Hfull. rewrite record_timing_full by lia. reflexivity.
Qed.

Lemma print_bench_after_record_timing_witness :
  wf_benchmark abc_store ∧
  (NUL ∉ list_ascii_of_string "d") ∧
  (timing_index abc_store < MAX_FUNS_TO_BENCH)%nat ∧
  print_bench (fst (record_timing (at_us 6500) "d" abc_store))
    = "a:1000" +++ nl +++ "b:3000" +++ nl +++ "c:2000" +++ nl +++ "d:2500" +++ nl.
Proof.
  assert (Hnot : NUL ∉ list_ascii_of_string "d").
  { rewrite list_elem_of_In. vm_compute. intuition discriminate. }
  assert (Hroom : (timing_index abc_store < MAX_FUNS_TO_BENCH)%nat) by (vm_compute; lia).
  split; [exact wf_abc_store|]. split; [exact Hnot|]. split; [exact Hroom|].
  etrans; [exact (proj1 (print_bench_after_record_timing (at_us 6500) "d" abc_store
                           wf_abc_store Hnot) Hroom)|].
  vm_compute. reflexivity.
Defined.

(** ** [format_scaled] *)

Lemma substring_length_le s : ∀ m, (String.length (String.substring 0 m s) ≤ m)%nat.
Proof.
  induction s as [|c s IH]; intros [|m]; cbn; try lia.
  specialize (IH m). lia.
Qed.

Lemma substring_all s : ∀ m, (String.length s ≤ m)%nat → String.substring 0 m s = s.
Proof.
  induction s as [|c s IH]; intros [|m] Hm; cbn in *; try reflexivity; try lia.
  rewrite IH by lia. reflexivity.
Qed.

Section FormatBound.
Context `{Libc}.

(** X4. [format_scaled] never fills more than the buffer it is given:
    the text it stores has at most [buf_size - 1] bytes, so with its
    terminator it fits in [buf_size]. When the full text (the scaled
    value in a field of 7 with 3 decimals, a space, the SI prefix and the
    unit) is that short, it is stored whole; otherwise it is cut. *)
Theorem format_scaled_fits_buffer val buf_size unit :
  (String.length (format_scaled val buf_size unit) ≤ buf_size - 1)%nat ∧
  ((String.length
      (conv_wf 7 3 (PrimFloat.div val (scale_divisor (get_scale val))) +++ " " +++
       suffix (get_scale val) +++ unit) ≤ buf_size - 1)%nat →
   format_scaled val buf_size unit
     = conv_wf 7 3 (PrimFloat.div val (scale_divisor (get_scale val))) +++ " " +++
       suffix (get_scale val) +++ unit).
Proof.
  unfold format_scaled, snprintf. split.
  - apply substring_length_le.
  - apply substring_all.
Qed.
End FormatBound.

Lemma format_scaled_fits_buffer_witness :
  (String.length
     (@conv_wf model_libc 7 3 (PrimFloat.div 1500 (scale_divisor (get_scale 1500)))
      +++ " " +++ suffix (get_scale 1500) +++ "s") ≤ STRING_LENGTH - 1)%nat ∧
  @format_scaled model_libc 1500 STRING_LENGTH "s" = "  1.500 ks"%string ∧
  String.length (@format_scaled model_libc 1e300 STRING_LENGTH "s") = 31%nat.
Proof.
  assert (Hshort : (String.length
     (@conv_wf model_libc 7 3 (PrimFloat.div 1500 (scale_divisor (get_scale 1500)))
      +++ " " +++ suffix (get_scale 1500) +++ "s") ≤ STRING_LENGTH - 1)%nat)
    by (vm_compute; lia).
  split; [exact Hshort|]. split.
  - etrans; [exact (proj2 (@format_scaled_fits_buffer model_libc 1500 STRING_LENGTH "s")
                      Hshort)|].
    vm_compute. reflexivity.
  - vm_compute. reflexivity.
Defined.

(** ** [get_time_us] and the durations it yields *)

Lemma get_time_us_valid ts :
  valid_timespec ts →
  get_time_us ts = tv_sec ts * 1000000 + tv_nsec ts / 1000.
Proof.
  intros (Hsec & Hfit & Hnsec). unfold get_time_us.
  rewrite Z.quot_div_nonneg by lia.
  assert (Hq : 0 ≤ tv_nsec ts / 1000 ≤ 999999).
  { split; [apply Z.div_pos; lia|].
    apply Z.lt_succ_r, Z.div_lt_upper_bound; lia. }
  rewrite (wrap_ll_id (tv_sec ts * 1000000)) by (unfold in_ll; lia).
  apply wrap_ll_id. unfold in_ll. lia.
Qed.

(** X5. For a reading with non-negative fields, [tv_nsec] below one
    second and a microsecond count that fits a [long long], [get_time_us]
    is [tv_sec * 1000000 + tv_nsec / 1000] with no wrap-around: it is
    non-negative, it drops the nanoseconds below one microsecond, and it
    never decreases from a reading to a later one. *)
Theorem get_time_us_monotone :
  (∀ ts, valid_timespec ts →
     get_time_us ts = tv_sec ts * 1000000 + tv_nsec ts / 1000 ∧
     0 ≤ get_time_us ts ∧
     get_time_us ts * 1000 ≤ tv_sec ts * 1000000000 + tv_nsec ts
                            < get_time_us ts * 1000 + 1000) ∧
  (∀ t1 t2, valid_timespec t1 → valid_timespec t2 → not_later t1 t2 →
     get_time_us t1 ≤ get_time_us t2).
Proof.
  split.
  - intros ts Hv. pose proof Hv as (Hsec & Hfit & Hnsec).
    rewrite get_time_us_valid by exact Hv.
    pose proof (Z.div_mod (tv_nsec ts) 1000 ltac:(lia)) as Hdm.
    pose proof (Z.mod_pos_bound (tv_nsec ts) 1000 ltac:(lia)) as Hm.
    assert (0 ≤ tv_nsec ts / 1000) by (apply Z.div_pos; lia).
    repeat split; lia.
  - intros t1 t2 Hv1 Hv2 Hle.
    rewrite !get_time_us_valid by assumption.
    destruct Hv1 as (Hs1 & _ & Hn1), Hv2 as (Hs2 & _ & Hn2).
    assert (0 ≤ tv_nsec t1 / 1000 ≤ 999999).
    { split; [apply Z.div_pos; lia|apply Z.lt_succ_r, Z.div_lt_upper_bound; lia]. }
    assert (0 ≤ tv_nsec t2 / 1000) by (apply Z.div_pos; lia).
    destruct Hle as [Hlt|[Heq Hns]].
    + lia.
    + rewrite Heq. apply Z.add_le_mono_l, Z.div_le_mono; lia.
Qed.

Lemma get_time_us_monotone_witness :
  valid_timespec {| tv_sec := 3; tv_nsec := 999999999 |} ∧
  valid_timespec {| tv_sec := 4; tv_nsec := 1999 |} ∧
  not_later {| tv_sec := 3; tv_nsec := 999999999 |} {| tv_sec := 4; tv_nsec := 1999 |} ∧
  get_time_us {| tv_sec := 3; tv_nsec := 999999999 |} = 3999999 ∧
  get_time_us {| tv_sec := 3; tv_nsec := 999999999 |}
    ≤ get_time_us {| tv_sec := 4; tv_nsec := 1999 |}.
Proof.
  assert (Hv1 : valid_timespec {| tv_sec := 3; tv_nsec := 999999999 |})
    by (unfold valid_timespec; cbn; lia).
  assert (Hv2 : valid_timespec {| tv_sec := 4; tv_nsec := 1999 |})
    by (unfold valid_timespec; cbn; lia).
  assert (Hle : not_later {| tv_sec := 3; tv_nsec := 999999999 |}
                          {| tv_sec := 4; tv_nsec := 1999 |})
    by (left; cbn; lia).
  destruct get_time_us_monotone as [Hval Hmono].
  split; [exact Hv1|]. split; [exact Hv2|]. split; [exact Hle|].
  split; [etrans; [exact (proj1 (Hval _ Hv1))|reflexivity]|].
  exact (Hmono _ _ Hv1 Hv2 Hle).
Defined.

(** X6. A timed block: after [START_TIMING] at one reading and
    [END_TIMING] at a later one, the recorded duration is the difference
    of the two microsecond counts and is not negative. Only the last
    [START_TIMING] before the [END_TIMING] counts: an earlier mark is
    discarded. *)
Theorem timed_block_duration t0 t1 t2 label b :
  wf_benchmark b → (timing_index b < MAX_FUNS_TO_BENCH)%nat →
  valid_timespec t1 → valid_timespec t2 → not_later t1 t2 →
  let b' := fst (END_TIMING t2 label (START_TIMING t1 (START_TIMING t0 b))) in
  time_us (timings_at b' (timing_index b)) = get_time_us t2 - get_time_us t1 ∧
  0 ≤ time_us (timings_at b' (timing_index b)) ∧
  total_time b' = wrap_ll (total_time b + (get_time_us t2 - get_time_us t1)) ∧
  START_TIMING t1 (START_TIMING t0 b) = START_TIMING t1 b.
Proof.
  intros Hwf Hroom Hv1 Hv2 Hle b'. subst b'. unfold END_TIMING.
  set (b1 := START_TIMING t1 (START_TIMING t0 b)).
  assert (Hwf1 : wf_benchmark b1) by exact Hwf.
  assert (Hroom1 : (timing_index b1 < MAX_FUNS_TO_BENCH)%nat) by exact Hroom.
  pose proof (record_timing_slot t2 label b1 Hwf1 Hroom1) as Hslot.
  change (timing_index b1) with (timing_index b) in Hslot.
  rewrite (timings_at_lookup _ _ _ Hslot).
  cbn [recorded_entry time_us]. change (start_time b1) with (get_time_us t1).
  assert (Hmono : get_time_us t1 ≤ get_time_us t2).
  { rewrite !get_time_us_valid by assumption.
    destruct Hv1 as (Hs1 & _ & Hn1), Hv2 as (Hs2 & _ & Hn2).
    assert (0 ≤ tv_nsec t1 / 1000 ≤ 999999).
    { split; [apply Z.div_pos; lia|apply Z.lt_succ_r, Z.div_lt_upper_bound; lia]. }
    assert (0 ≤ tv_nsec t2 / 1000) by (apply Z.div_pos; lia).
    destruct Hle as [Hlt|[Heq Hns]]; [lia|].
    rewrite Heq. apply Z.add_le_mono_l, Z.div_le_mono; lia. }
  pose proof (get_time_us_range t1) as Hr1. pose proof (get_time_us_range t2) as Hr2.
  assert (Hd : wrap_ll (get_time_us t2 - get_time_us t1)
               = get_time_us t2 - get_time_us t1).
  { apply wrap_ll_id. unfold in_ll in *.
    rewrite (get_time_us_valid t1 Hv1) in *.
    destruct Hv1 as (Hs1 & _ & Hn1).
    assert (0 ≤ tv_nsec t1 / 1000) by (apply Z.div_pos; lia). lia. }
  rewrite Hd. split; [reflexivity|]. split; [lia|]. split; [|reflexivity].
  rewrite record_timing_room by exact Hroom1. cbn [fst total_time].
  change (start_time b1) with (get_time_us t1). rewrite Hd. reflexivity.
Qed.

Lemma timed_block_duration_witness :
  wf_benchmark abc_store ∧
  (timing_index abc_store < MAX_FUNS_TO_BENCH)%nat ∧
  valid_timespec (at_us 7000) ∧ valid_timespec (at_us 7250) ∧
  not_later (at_us 7000) (at_us 7250) ∧
  time_us (timings_at
    (fst (END_TIMING (at_us 7250) "d"
       (START_TIMING (at_us 7000) (START_TIMING (at_us 6100) abc_store)))) 3) = 250.
Proof.
  assert (Hroom : (timing_index abc_store < MAX_FUNS_TO_BENCH)%nat) by (vm_compute; lia).
  assert (Hv1 : valid_timespec (at_us 7000)) by (unfold valid_timespec; cbn; lia).
  assert (Hv2 : valid_timespec (at_us 7250)) by (unfold valid_timespec; cbn; lia).
  assert (Hle : not_later (at_us 7000) (at_us 7250)) by (right; cbn; lia).
  split; [exact wf_abc_store|]. split; [exact Hroom|].
  split; [exact Hv1|]. split; [exact Hv2|]. split; [exact Hle|].
  etrans; [exact (proj1 (timed_block_duration (at_us 6100) (at_us 7000) (at_us 7250)
                           "d" abc_store wf_abc_store Hroom Hv1 Hv2 Hle))|].
  reflexivity.
Defined.

(** ** What [record_timing] touches *)

(** X7. [record_timing] writes slot [timing_index] and no other: every
    other slot of [timings], used or not, holds what it held, the array
    keeps its size, and the entries stored so far are followed by the
    new one. *)
Theorem record_timing_frame now label b :
  (∀ j, j ≠ timing_index b →
     timings (fst (record_timing now label b)) !! j = timings b !! j) ∧
  length (timings (fst (record_timing now label b))) = length (timings b) ∧
  (wf_benchmark b → (timing_index b < MAX_FUNS_TO_BENCH)%nat →
   take (timing_index (fst (record_timing now label b)))
        (timings (fst (record_timing now label b)))
     = take (timing_index b) (timings b) ++ [recorded_entry now label b]).
Proof.
  split; [|split].
  - intros j Hj. unfold record_timing. case_bool_decide; [reflexivity|].
    cbn [fst timings]. rewrite !list_lookup_alter_ne by congruence. reflexivity.
  - unfold record_timing. case_bool_decide; [reflexivity|].
    cbn [fst timings]. rewrite !length_alter. reflexivity.
  - intros Hwf Hroom. exact (record_timing_stored now label b Hwf Hroom).
Qed.

Lemma record_timing_frame_witness :
  1%nat ≠ timing_index abc_store ∧
  timings (fst (record_timing (at_us 6500) "d" abc_store)) !! 1%nat
    = timings abc_store !! 1%nat ∧
  labels (take 4 (timings (fst (record_timing (at_us 6500) "d" abc_store))))
    = ["a"; "b"; "c"; "d"]%string.
Proof.
  assert (Hne : 1%nat ≠ timing_index abc_store) by (vm_compute; lia).
  split; [exact Hne|]. split.
  - exact (proj1 (record_timing_frame (at_us 6500) "d" abc_store) 1%nat Hne).
  - vm_compute. reflexivity.
Defined.

(** X8. The label buffer of a recorded entry depends on the label alone:
    it is the first 99 bytes of the label followed by NULs up to the end
    of the buffer, whatever the slot held before (a slot reused after
    [benchmark_init] keeps nothing of its old label). A label of at most
    99 bytes without NUL is read back unchanged; a label with a NUL inside
    is read back up to that NUL. *)
Theorem recorded_label_round_trip now label b :
  wf_benchmark b → (timing_index b < MAX_FUNS_TO_BENCH)%nat →
  let buf := function_name
               (timings_at (fst (record_timing now label b)) (timing_index b)) in
  buf = take (MAX_FUNS_NAME_LENGTH - 1) (c_chars (list_ascii_of_string label))
        ++ replicate (MAX_FUNS_NAME_LENGTH
                      - length (take (MAX_FUNS_NAME_LENGTH - 1)
                                     (c_chars (list_ascii_of_string label)))) NUL ∧
  ((String.length label < MAX_FUNS_NAME_LENGTH)%nat →
   c_str buf = string_of_list_ascii (c_chars (list_ascii_of_string label))) ∧
  ((String.length label < MAX_FUNS_NAME_LENGTH)%nat →
   NUL ∉ list_ascii_of_string label → c_str buf = label).
Proof.
  intros Hwf Hroom buf.
  assert (Hbuf : buf = padded_copy (list_ascii_of_string label) (MAX_FUNS_NAME_LENGTH - 1)
                       ++ [NUL]).
  { subst buf.
    rewrite (timings_at_lookup _ _ _ (record_timing_slot now label b Hwf Hroom)).
    apply recorded_entry_buffer; assumption. }
  assert (Htext : c_chars buf
            = take (MAX_FUNS_NAME_LENGTH - 1) (c_chars (list_ascii_of_string label))).
  { rewrite Hbuf. unfold padded_copy. rewrite <- app_assoc.
    apply c_chars_terminated, Forall_take, c_chars_no_nul. }
  assert (Hshort : (String.length label < MAX_FUNS_NAME_LENGTH)%nat →
            c_chars buf = c_chars (list_ascii_of_string label)).
  { intros Hlen. rewrite Htext. apply take_ge.
    pose proof (list_ascii_of_string_length label) as Hl.
    assert (Hc : ∀ l, (length (c_chars l) ≤ length l)%nat).
    { induction l as [|c l IH]; cbn; [lia|]. destruct (is_nul c); cbn; lia. }
    specialize (Hc (list_ascii_of_string label)). lia. }
  split; [|split].
  - rewrite Hbuf. unfold padded_copy. rewrite <- app_assoc. f_equal.
    rewrite length_take.
    set (n := length (c_chars (list_ascii_of_string label))).
    unfold MAX_FUNS_NAME_LENGTH.
    replace (100 - Nat.min (100 - 1) n)%nat with (S (100 - 1 - n))%nat by lia.
    rewrite replicate_S_end. reflexivity.
  - intros Hlen. unfold c_str. rewrite Hshort by exact Hlen. reflexivity.
  - intros Hlen Hnot. unfold c_str. rewrite Hshort by exact Hlen.
    rewrite c_chars_id by exact Hnot. apply string_of_list_ascii_of_string.
Qed.

Lemma recorded_label_round_trip_witness :
  wf_benchmark (benchmark_init abc_store) ∧
  (timing_index (benchmark_init abc_store) < MAX_FUNS_TO_BENCH)%nat ∧
  (String.length "fft_1024" < MAX_FUNS_NAME_LENGTH)%nat ∧
  (NUL ∉ list_ascii_of_string "fft_1024") ∧
  c_str (function_name
           (timings_at (fst (record_timing (at_us 9) "fft_1024"
                               (benchmark_init abc_store))) 0))
    = "fft_1024"%string.
Proof.
  assert (Hwf : wf_benchmark (benchmark_init abc_store))
    by exact (wf_benchmark_init _ wf_abc_store).
  assert (Hroom : (timing_index (benchmark_init abc_store) < MAX_FUNS_TO_BENCH)%nat)
    by (vm_compute; lia).
  assert (Hlen : (String.length "fft_1024" < MAX_FUNS_NAME_LENGTH)%nat)
    by (vm_compute; lia).
  assert (Hnot : NUL ∉ list_ascii_of_string "fft_1024").
  { rewrite list_elem_of_In. vm_compute. intuition discriminate. }
  split; [exact Hwf|]. split; [exact Hroom|]. split; [exact Hlen|]. split; [exact Hnot|].
  exact (proj2 (proj2 (recorded_label_round_trip (at_us 9) "fft_1024"
                         (benchmark_init abc_store) Hwf Hroom)) Hlen Hnot).
Defined.

(** ** What [print_bench_ranked] does to the store *)

Lemma descending_by_time l :
  StronglySorted descending l → StronglySorted (λ x y, time_us y ≤ time_us x) l.
Proof.
  induction 1 as [|t l _ IH Hall]; constructor; [exact IH|].
  eapply Forall_impl; [exact Hall|].
  intros u Hu. unfold descending in Hu. apply compare_times_le, Hu.
Qed.

Section RankedStore.
Context `{Libc}.

Lemma print_bench_json_stored b :
  wf_benchmark b →
  print_bench_json b
    = ">>>{" +++ nl +++ json_lines (total_time b) (stored b) +++ "}<<<" +++ nl.
Proof.
  intros Hwf. unfold print_bench_json, for_each.
  pose proof (stored_length b Hwf) as Hlen. pose proof Hwf as (_ & _ & Hcap).
  rewrite <- Hlen at 1. rewrite (json_loop b (stored b) 0%nat); [reflexivity| |exact Hlen|exact Hcap].
  intros i t Hi. apply stored_lookup. exact Hi.
Qed.

(** X9. [print_bench_ranked] reorders and does nothing else to the store:
    the stored entries afterwards are the same entries, each as often as
    before, in descending order of duration, so the first one has the
    largest duration; the slots at and beyond [timing_index], the count,
    the total and the pending start mark are untouched. *)
Theorem print_bench_ranked_sorts_in_place b b' o :
  wf_benchmark b →
  print_bench_ranked b = Some (b', o) →
  take (timing_index b') (timings b') ≡ₚ take (timing_index b) (timings b) ∧
  StronglySorted (λ x y, time_us y ≤ time_us x) (take (timing_index b') (timings b')) ∧
  (∀ t, t ∈ take (timing_index b) (timings b) →
        time_us t ≤ time_us (timings_at b' 0)) ∧
  drop (timing_index b) (timings b') = drop (timing_index b) (timings b) ∧
  timing_index b' = timing_index b ∧
  total_time b' = total_time b ∧
  start_time b' = start_time b.
Proof.
  intros Hwf Hres.
  destruct (print_bench_ranked_store _ _ _ Hres) as [[Hz ->]|[Hn ->]].
  - rewrite Hz. cbn [take]. repeat split; try reflexivity; try constructor.
    intros t Ht. apply elem_of_nil in Ht. destruct Ht.
  - fold (stored (ranked_sort b)). fold (stored b).
    pose proof (stored_ranked_sort b Hwf) as Hst.
    assert (Hperm : stored (ranked_sort b) ≡ₚ stored b)
      by (rewrite Hst; apply qsort_permutation).
    assert (Hsorted : StronglySorted (λ x y, time_us y ≤ time_us x) (stored (ranked_sort b)))
      by (rewrite Hst; apply descending_by_time, qsort_descending).
    split; [exact Hperm|]. split; [exact Hsorted|]. split; [|split].
    + intros t Ht. rewrite <- Hperm in Ht.
      destruct (stored (ranked_sort b)) as [|h tl] eqn:Hs; [apply elem_of_nil in Ht; destruct Ht|].
      assert (Hh : timings_at (ranked_sort b) 0 = h)
        by (apply stored_lookup; rewrite Hs; reflexivity).
      rewrite Hh. apply elem_of_cons in Ht as [->|Ht]; [lia|].
      apply StronglySorted_inv in Hsorted as [_ Hall].
      exact (proj1 (Forall_forall _ _) Hall t Ht).
    + unfold ranked_sort; cbn [timings].
      apply drop_app_length'.
      rewrite (Permutation_length (qsort_permutation _ _)), length_take.
      destruct Hwf as (Hlen & _ & Hidx). lia.
    + repeat split.
Qed.

(** X10. The reordering shows in the other reports: after
    [print_bench_ranked], [print_bench] and [print_bench_json] list the
    entries in the order of the chart, descending by duration, no longer
    in recording order. *)
Theorem listings_after_print_bench_ranked b b' o :
  wf_benchmark b →
  print_bench_ranked b = Some (b', o) →
  ∃ sorted,
    sorted ≡ₚ take (timing_index b) (timings b) ∧
    StronglySorted (λ x y, time_us y ≤ time_us x) sorted ∧
    print_bench b' = raw_lines sorted ∧
    print_bench_json b'
      = ">>>{" +++ nl +++ json_lines (total_time b) sorted +++ "}<<<" +++ nl.
Proof.
  intros Hwf Hres.
  destruct (print_bench_ranked_store _ _ _ Hres) as [[Hz ->]|[Hn ->]].
  - exists []. rewrite Hz. cbn [take].
    rewrite print_bench_raw_lines, print_bench_json_stored by exact Hwf.
    unfold stored. rewrite Hz. cbn [take]. repeat split; constructor.
  - exists (stored (ranked_sort b)).
    pose proof (wf_ranked_sort b Hwf) as Hwf'.
    rewrite print_bench_raw_lines, print_bench_json_stored by exact Hwf'.
    rewrite (stored_ranked_sort b Hwf). fold (stored b).
    split; [apply qsort_permutation|].
    split; [apply descending_by_time, qsort_descending|].
    split; reflexivity.
Qed.

(** X11. With a zero total and an entry of duration 0 in the store,
    [print_bench_ranked] reaches line 400 with a NaN percentage and
    converts it to [int], which C leaves undefined: the call has no
    defined result, whatever [qsort] did. (The guard of line 385 covers
    only the empty store.) *)
Theorem print_bench_ranked_zero_total_undefined b t :
  wf_benchmark b →
  total_time b = 0 →
  t ∈ take (timing_index b) (timings b) → time_us t = 0 →
  print_bench_ranked b = None.
Proof.
  intros Hwf Htotal Ht Htime. fold (stored b) in Ht.
  assert (Hn : timing_index b ≠ 0%nat).
  { intros Hz. unfold stored in Ht. rewrite Hz in Ht. apply elem_of_nil in Ht. exact Ht. }
  rewrite print_bench_ranked_rows by exact Hn.
  destruct (for_each_opt _ _) as [rows|] eqn:Hrows; [|reflexivity]. exfalso.
  assert (Hin : t ∈ stored (ranked_sort b)).
  { rewrite stored_ranked_sort by exact Hwf. rewrite qsort_permutation. exact Ht. }
  apply list_elem_of_lookup in Hin as [i Hi].
  assert (Hlt : (i < timing_index b)%nat).
  { apply lookup_lt_Some in Hi.
    rewrite (stored_length _ (wf_ranked_sort b Hwf)) in Hi. exact Hi. }
  assert (Hsome : is_Some (ranked_row (ranked_sort b)
                             (time_us (timings_at (ranked_sort b) 0)) i)).
  { unfold for_each_opt in Hrows.
    apply (proj1 (for_each_opt_defined
                    (ranked_row (ranked_sort b) (time_us (timings_at (ranked_sort b) 0)))
                    (timing_index b) 0%nat));
      [rewrite Hrows; eexists; reflexivity|lia]. }
  apply ranked_row_defined in Hsome.
  unfold percentage_of in Hsome. rewrite (stored_lookup _ _ _ Hi), Htime in Hsome.
  cbn [ranked_sort total_time] in Hsome. rewrite Htotal in Hsome.
  destruct Hsome as [x Hx]. vm_compute in Hx. discriminate.
Qed.
End RankedStore.

Lemma print_bench_ranked_sorts_in_place_witness :
  wf_benchmark abc_store ∧
  @print_bench_ranked model_libc abc_store
    = Some (@ranked_sort model_libc abc_store, abc_ranked_output) ∧
  time_us <$> take 3 (timings (@ranked_sort model_libc abc_store)) = [3000; 2000; 1000] ∧
  StronglySorted (λ x y, time_us y ≤ time_us x)
    (take (timing_index (@ranked_sort model_libc abc_store))
          (timings (@ranked_sort model_libc abc_store))).
Proof.
  assert (Hres : @print_bench_ranked model_libc abc_store
                 = Some (@ranked_sort model_libc abc_store, abc_ranked_output))
    by (vm_compute; reflexivity).
  split; [exact wf_abc_store|]. split; [exact Hres|].
  split; [vm_compute; reflexivity|].
  exact (proj1 (proj2 (@print_bench_ranked_sorts_in_place model_libc abc_store _ _
                         wf_abc_store Hres))).
Defined.

Lemma listings_after_print_bench_ranked_witness :
  wf_benchmark abc_store ∧
  @print_bench_ranked model_libc abc_store
    = Some (@ranked_sort model_libc abc_store, abc_ranked_output) ∧
  print_bench (@ranked_sort model_libc abc_store)
    = "b:3000" +++ nl +++ "c:2000" +++ nl +++ "a:1000" +++ nl ∧
  ∃ sorted, print_bench (@ranked_sort model_libc abc_store) = raw_lines sorted.
Proof.
  assert (Hres : @print_bench_ranked model_libc abc_store
                 = Some (@ranked_sort model_libc abc_store, abc_ranked_output))
    by (vm_compute; reflexivity).
  split; [exact wf_abc_store|]. split; [exact Hres|].
  split; [vm_compute; reflexivity|].
  destruct (@listings_after_print_bench_ranked model_libc abc_store _ _
              wf_abc_store Hres) as (sorted & _ & _ & Hraw & _).
  exists sorted. exact Hraw.
Defined.

Lemma print_bench_ranked_zero_total_undefined_witness :
  wf_benchmark zero_store ∧
  total_time zero_store = 0 ∧
  timings_at zero_store 0 ∈ take (timing_index zero_store) (timings zero_store) ∧
  time_us (timings_at zero_store 0) = 0 ∧
  @print_bench_ranked model_libc zero_store = None.
Proof.
  assert (Hin : timings_at zero_store 0
                ∈ take (timing_index zero_store) (timings zero_store)).
  { apply list_elem_of_lookup. exists 0%nat. vm_compute. reflexivity. }
  split; [exact wf_zero_store|]. split; [reflexivity|]. split; [exact Hin|].
  split; [reflexivity|].
  exact (@print_bench_ranked_zero_total_undefined model_libc zero_store _
           wf_zero_store eq_refl Hin eq_refl).
Defined.

(** ** Programs: what reaches the streams, and the capacity *)

Lemma rep_add a b s : rep (a + b) s = rep a s +++ rep b s.
Proof.
  induction a as [|a IH]; cbn; [reflexivity|]. rewrite IH, append_assoc. reflexivity.
Qed.

Section Streams.
Context `{Libc}.

Lemma step_streams o b b' c :
  step o b = Some (b', c) →
  (recorded o c ≤ is_end o)%nat ∧
  err c = rep (is_end o - recorded o c) capacity_diagnostic ∧
  (is_recording_op o → out c = EmptyString).
Proof.
  destruct o; cbn [step is_end recorded is_recording_op].
  - intros [= _ <-]. cbn. auto.
  - intros [= _ <-]. cbn. auto.
  - intros [= _ <-]. cbn [err out]. unfold END_TIMING, record_timing.
    case_bool_decide; cbn [snd]; (split; [cbn; lia|split; [reflexivity|auto]]).
  - intros [= _ <-]. split; [lia|split; [reflexivity|intros []]].
  - intros [= _ <-]. split; [lia|split; [reflexivity|intros []]].
  - destruct (print_bench_ranked b) as [[b1 o1]|]; cbn; [|discriminate].
    intros [= _ <-]. split; [lia|split; [reflexivity|intros []]].
  - intros [= _ <-]. split; [lia|split; [reflexivity|intros []]].
Qed.

(** X12. Along any program, [stderr] receives exactly one capacity
    diagnostic per [END_TIMING] that was rejected and nothing else: its
    text is the diagnostic repeated (calls of [END_TIMING] minus
    successful recordings) times. A program made of [benchmark_init],
    [START_TIMING] and [END_TIMING] only writes nothing to [stdout]. *)
Theorem stderr_counts_dropped_recordings ops : ∀ b b' c n,
  run ops b = Some (b', c, n) →
  (n ≤ count_ends ops)%nat ∧
  err c = rep (count_ends ops - n) capacity_diagnostic ∧
  (Forall is_recording_op ops → out c = EmptyString).
Proof.
  induction ops as [|o ops IH]; intros b b' c n; cbn [run count_ends foldr].
  - intros [= _ <- <-]. cbn. auto.
  - destruct (step o b) as [[b1 c1]|] eqn:Hstep; cbn; [|discriminate].
    destruct (run ops b1) as [[[b2 c2] n2]|] eqn:Hrun; cbn; [|discriminate].
    intros [= _ <- <-]. cbn [err out].
    destruct (step_streams _ _ _ _ Hstep) as (Hle1 & Herr1 & Hout1).
    destruct (IH _ _ _ _ Hrun) as (Hle2 & Herr2 & Hout2).
    fold (count_ends ops) in *.
    split; [lia|]. split.
    + rewrite Herr1, Herr2, <- rep_add. f_equal. lia.
    + intros Hall. apply Forall_cons in Hall as [Ho Hops].
      rewrite (Hout1 Ho), (Hout2 Hops). reflexivity.
Qed.

(** X13. The capacity is an invariant of every program, re-initialising
    ones included: from a store with arrays of the declared sizes and
    [timing_index] within [MAX_FUNS_TO_BENCH], every program leaves
    [timing_index] within [MAX_FUNS_TO_BENCH], so no call ever indexes
    [timings] outside the array, and the arrays keep their sizes. *)
Theorem timing_index_within_capacity ops : ∀ b b' c n,
  wf_benchmark b →
  run ops b = Some (b', c, n) →
  (timing_index b' ≤ MAX_FUNS_TO_BENCH)%nat ∧
  length (timings b') = MAX_FUNS_TO_BENCH ∧
  Forall (λ t, length (function_name t) = MAX_FUNS_NAME_LENGTH) (timings b') ∧
  (timing_index b' ≤ timing_index b + count_ends ops)%nat.
Proof.
  induction ops as [|o ops IH]; intros b b' c n Hwf; cbn [run count_ends foldr].
  - intros [= <- _ _]. destruct Hwf as (Hlen & Hall & Hidx).
    split; [exact Hidx|]. split; [exact Hlen|]. split; [exact Hall|lia].
  - destruct (step o b) as [[b1 c1]|] eqn:Hstep; cbn; [|discriminate].
    destruct (run ops b1) as [[[b2 c2] n2]|] eqn:Hrun; cbn; [|discriminate].
    intros [= <- _ _].
    pose proof (wf_step _ _ _ _ Hwf Hstep) as Hwf1.
    destruct (IH _ _ _ _ Hwf1 Hrun) as (Hidx & Hlen & Hall & Hgrow).
    fold (count_ends ops) in *.
    split; [exact Hidx|]. split; [exact Hlen|]. split; [exact Hall|].
    assert (Hcase : o = OpInit ∨ o ≠ OpInit)
      by (destruct o; (left; reflexivity) || (right; discriminate)).
    destruct Hcase as [->|Hne].
    + cbn in Hstep. injection Hstep as <- _. cbn in Hgrow. cbn. lia.
    + destruct (step_index _ _ _ _ Hwf Hne Hstep) as [Hi _]. lia.
Qed.

(** X14. [benchmark_init] hides what was recorded before without
    erasing it: the array keeps the old entries, but [print_bench] then
    prints nothing and [print_bench_ranked] prints its notice and sorts
    nothing. The next recording goes to slot 0 and is the only entry the
    reports show. *)
Theorem benchmark_init_starts_over b now label :
  wf_benchmark b →
  timings (benchmark_init b) = timings b ∧
  print_bench (benchmark_init b) = EmptyString ∧
  print_bench_ranked (benchmark_init b) = Some (benchmark_init b, no_data_notice) ∧
  take (timing_index (fst (record_timing now label (benchmark_init b))))
       (timings (fst (record_timing now label (benchmark_init b))))
    = [recorded_entry now label (benchmark_init b)] ∧
  print_bench (fst (record_timing now label (benchmark_init b)))
    = raw_line (recorded_entry now label (benchmark_init b)) ∧
  total_time (fst (record_timing now label (benchmark_init b))) = get_time_us now.
Proof.
  intros Hwf. pose proof (wf_benchmark_init b Hwf) as Hwf0.
  assert (Hroom : (timing_index (benchmark_init b) < MAX_FUNS_TO_BENCH)%nat)
    by (cbn; unfold MAX_FUNS_TO_BENCH; lia).
  pose proof (record_timing_stored now label _ Hwf0 Hroom) as Hst.
  split; [reflexivity|]. split; [reflexivity|]. split; [reflexivity|].
  split; [exact Hst|]. split.
  - rewrite (print_bench_raw_lines _ (wf_record_timing now label _ Hwf0)), Hst.
    cbn. apply append_empty_r.
  - rewrite record_timing_room by exact Hroom. cbn [fst total_time benchmark_init start_time].
    rewrite Z.sub_0_r, Z.add_0_l.
    rewrite (wrap_ll_id (get_time_us now)) by apply get_time_us_range.
    apply wrap_ll_id, get_time_us_range.
Qed.
End Streams.


Lemma wf_full_store : wf_benchmark full_store.
Proof.
  unfold wf_benchmark, full_store; cbn [timings timing_index].
  split; [apply length_replicate|split; [|reflexivity]].
  apply Forall_replicate. apply length_replicate.
Qed.

Lemma stderr_counts_dropped_recordings_witness :
  @run model_libc [OpEnd (at_us 1) "late"; OpStart (at_us 2); OpEnd (at_us 3) "later"]
       full_store
    = Some (START_TIMING (at_us 2) full_store,
            {| out := EmptyString; err := capacity_diagnostic +++ capacity_diagnostic |},
            0%nat) ∧
  Forall is_recording_op
    [OpEnd (at_us 1) "late"; OpStart (at_us 2); OpEnd (at_us 3) "later"] ∧
  capacity_diagnostic +++ capacity_diagnostic = rep 2 capacity_diagnostic.
Proof.
  assert (Hrun : @run model_libc
            [OpEnd (at_us 1) "late"; OpStart (at_us 2); OpEnd (at_us 3) "later"] full_store
          = Some (START_TIMING (at_us 2) full_store,
                  {| out := EmptyString;
                     err := capacity_diagnostic +++ capacity_diagnostic |}, 0%nat))
    by (vm_compute; reflexivity).
  split; [exact Hrun|]. split; [repeat constructor|].
  exact (proj1 (proj2 (@stderr_counts_dropped_recordings model_libc _ _ _ _ _ Hrun))).
Defined.

Lemma timing_index_within_capacity_witness :
  wf_benchmark abc_store ∧
  @run model_libc (OpInit :: abc_program) abc_store = Some (abc_store, silent, 3%nat) ∧
  (timing_index abc_store ≤ MAX_FUNS_TO_BENCH)%nat.
Proof.
  assert (Hrun : @run model_libc (OpInit :: abc_program) abc_store
                 = Some (abc_store, silent, 3%nat)) by (vm_compute; reflexivity).
  split; [exact wf_abc_store|]. split; [exact Hrun|].
  exact (proj1 (@timing_index_within_capacity model_libc _ _ _ _ _ wf_abc_store Hrun)).
Defined.

Lemma benchmark_init_starts_over_witness :
  wf_benchmark abc_store ∧
  labels (take 3 (timings (benchmark_init abc_store))) = ["a"; "b"; "c"]%string ∧
  print_bench (fst (record_timing (at_us 5) "only" (benchmark_init abc_store)))
    = "only:5" +++ nl.
Proof.
  split; [exact wf_abc_store|]. split; [vm_compute; reflexivity|].
  destruct (@benchmark_init_starts_over model_libc abc_store (at_us 5) "only"
              wf_abc_store) as (_ & _ & _ & _ & Hprint & _).
  etrans; [exact Hprint|]. vm_compute. reflexivity.
Defined.

(** ** [get_scale] and [get_gradient_color] on every [double] *)

(** X15. For every [double], NaN and the infinities included,
    [get_scale] returns an entry of the table, and the divisor of that
    entry is positive: [format_scaled] never divides by zero. A NaN gets
    the nano entry and an infinity the tera entry. *)
Theorem get_scale_in_table :
  (∀ v, get_scale v ∈ scales ∧
        PrimFloat.ltb 0 (scale_divisor (get_scale v)) = true) ∧
  get_scale PrimFloat.nan = scales_at (idx scale_nano_idx) ∧
  get_scale PrimFloat.infinity = scales_at (idx scale_tera_idx) ∧
  get_scale PrimFloat.neg_infinity = scales_at (idx scale_tera_idx).
Proof.
  split; [|repeat split; vm_compute; reflexivity].
  intros v.
  assert (Hidx : ∃ i, (i < scale_count)%nat ∧ get_scale v = scales_at i).
  { unfold get_scale. destruct (PrimFloat.eqb v 0).
    - exists 0%nat. split; [unfold scale_count; lia|reflexivity].
    - destruct (get_scale_loop_spec v scale_count) as [(i & Hi & _ & _ & ->)|[_ ->]].
      + exists i. auto.
      + exists 0%nat. split; [unfold scale_count; lia|reflexivity]. }
  destruct Hidx as (i & Hi & ->). split.
  - apply scales_elem. exists i. auto.
  - unfold scale_count in Hi.
    do 8 (destruct i as [|i]; [reflexivity|]). lia.
Qed.

Lemma gradient_colors_distinct : NoDup gradient_colors.
Proof.
  unfold gradient_colors.
  repeat (apply NoDup_cons; split;
          [rewrite ?elem_of_cons, elem_of_nil; intros Hin;
           repeat (destruct Hin as [Hin|Hin]; [vm_compute in Hin; discriminate|]);
           exact Hin|]).
  apply NoDup_nil. exact I.
Qed.

(** X16. [get_gradient_color] always returns one of eight colours that
    are pairwise different, so the colour of a row tells its bucket: the
    strongest colour exactly for a share of at least 80, the baseline
    colour exactly when no threshold is passed (a share of at most 0.1, a
    negative one or a NaN). *)
Theorem get_gradient_color_buckets p :
  get_gradient_color p ∈ gradient_colors ∧
  NoDup gradient_colors ∧
  (get_gradient_color p = BRIGHT_RED ↔ PrimFloat.leb 80 p = true) ∧
  (get_gradient_color p = BLUE ↔
     PrimFloat.leb 80 p = false ∧ PrimFloat.leb 60 p = false ∧
     PrimFloat.leb 40 p = false ∧ PrimFloat.leb 25 p = false ∧
     PrimFloat.leb 15 p = false ∧ PrimFloat.leb 5 p = false ∧
     PrimFloat.ltb 0.1 p = false).
Proof.
  split; [|split; [exact gradient_colors_distinct|]].
  - unfold get_gradient_color, gradient_colors.
    repeat match goal with
           | |- context [if ?c then _ else _] => destruct c
           end;
      rewrite !elem_of_cons; tauto.
  - unfold get_gradient_color.
    destruct (PrimFloat.leb 80 p); [split; split; intros Heq;
      try reflexivity; try (vm_compute in Heq; discriminate);
      try (destruct Heq; discriminate)|].
    destruct (PrimFloat.leb 60 p); [split; split; intros Heq;
      try (vm_compute in Heq; discriminate); try (destruct Heq as (_ & ? & _); discriminate);
      discriminate|].
    destruct (PrimFloat.leb 40 p); [split; split; intros Heq;
      try (vm_compute in Heq; discriminate);
      try (destruct Heq as (_ & _ & ? & _); discriminate); discriminate|].
    destruct (PrimFloat.leb 25 p); [split; split; intros Heq;
      try (vm_compute in Heq; discriminate);
      try (destruct Heq as (_ & _ & _ & ? & _); discriminate); discriminate|].
    destruct (PrimFloat.leb 15 p); [split; split; intros Heq;
      try (vm_compute in Heq; discriminate);
      try (destruct Heq as (_ & _ & _ & _ & ? & _); discriminate); discriminate|].
    destruct (PrimFloat.leb 5 p); [split; split; intros Heq;
      try (vm_compute in Heq; discriminate);
      try (destruct Heq as (_ & _ & _ & _ & _ & ? & _); discriminate); discriminate|].
    destruct (PrimFloat.ltb 0.1 p); [split; split; intros Heq;
      try (vm_compute in Heq; discriminate);
      try (destruct Heq as (_ & _ & _ & _ & _ & _ & ?); discriminate); discriminate|].
    split; split; intros Heq; try (vm_compute in Heq; discriminate);
      try discriminate; try reflexivity; repeat split.
Qed.
